(** * tzhttpd: the URI router of HttpHandler.h

    A shallow embedding of [tzhttpd::HttpHandler] (src/HttpHandler.h): the
    handler record, the ordered handler tables, path normalisation
    ([pure_uri_path]) and the three template operations that the header
    defines ([do_check_exist_http_handler], [do_switch_http_handler],
    [do_update_http_handler]).

    Conventions of the embedding.
    - A [std::string] is the list of its chars; [size_t] values are
      integers taken modulo 2^64.
    - A [std::shared_ptr<HttpHandlerObject<T>>] is an optional address into
      a store of records, so that two holders of one pointer see the same
      record (the table entry and an in-flight call share it).
    - C++ undefined behaviour (a null [shared_ptr] dereferenced, a string
      indexed past its end) is an explicit [Undefined] outcome.
    - Logging macros have no effect on the state and are left out. *)

From Stdlib Require Import ZArith Ascii String Lia.
From stdpp Require Import base option list gmap strings.

Local Open Scope Z_scope.

(** ** Outcomes of a call *)

Inductive fault : Type :=
  | NullDereference      (* operator-> on an empty shared_ptr *)
  | DanglingPointer      (* an address with no record behind it *)
  | OutOfBounds          (* operator[] past the end of a string *)
  | PastTheEnd           (* erase of an iterator that is not in the vector *)
  | OutOfFuel.           (* the embedding's loop bound was too small *)

Inductive outcome (A : Type) : Type :=
  | Returned (a : A)
  | Undefined (f : fault).
Arguments Returned {A} a.
Arguments Undefined {A} f.

Global Instance outcome_ret : MRet outcome := fun A a => Returned a.
Global Instance outcome_bind : MBind outcome := fun A B k m =>
  match m with
  | Returned a => k a
  | Undefined f => Undefined f
  end.

(** ** std::string *)

Abbreviation cxx_string := (list ascii).

(** Reads a literal as a [std::string]. *)
Definition lit (s : string) : cxx_string := list_ascii_of_string s.

Definition SIZE_T_MODULUS : Z := 18446744073709551616.

(** The strings a [std::string] can hold: the size fits a [size_t]. *)
Definition representable (s : cxx_string) : Prop :=
  Z.of_nat (length s) < SIZE_T_MODULUS.

(** [s.size()] *)
Definition size (s : cxx_string) : Z := Z.of_nat (length s).

(** Subtraction of two [size_t] values. *)
Definition size_t_sub (a b : Z) : Z := (a - b) mod SIZE_T_MODULUS.

(** [s[pos]]: the char at [pos], the terminating NUL at [pos == size()],
    undefined beyond. *)
Definition at_index (s : cxx_string) (pos : Z) : outcome ascii :=
  if pos <? size s then
    match s !! Z.to_nat pos with
    | Some c => Returned c
    | None => Undefined OutOfBounds
    end
  else if pos =? size s then Returned Ascii.zero
  else Undefined OutOfBounds.

(** [s.substr(pos, n)] for a [pos] that is not past the end. *)
Definition substr (s : cxx_string) (pos n : Z) : cxx_string :=
  take (Z.to_nat n) (drop (Z.to_nat pos) s).

(** [std::tolower] in the classic locale: 'A'..'Z' to 'a'..'z'. *)
Definition tolower (c : ascii) : ascii :=
  let n := N_of_ascii c in
  if ((65 <=? n) && (n <=? 90))%N then ascii_of_N (n + 32) else c.

(** [std::isspace] in the classic locale: space, \t \n \v \f \r. *)
Definition isspace (c : ascii) : bool :=
  let n := N_of_ascii c in
  ((n =? 32) || ((9 <=? n) && (n <=? 13)))%N.

(** [boost::to_lower_copy] *)
Definition to_lower_copy (s : cxx_string) : cxx_string := tolower <$> s.

(** [boost::algorithm::trim_copy]: the end is trimmed, then the beginning. *)
Fixpoint trim_begin (s : cxx_string) : cxx_string :=
  match s with
  | [] => []
  | c :: s' => if isspace c then trim_begin s' else s
  end.

Definition trim_end (s : cxx_string) : cxx_string :=
  reverse (trim_begin (reverse s)).

Definition trim_copy (s : cxx_string) : cxx_string :=
  trim_begin (trim_end s).

Definition slash : ascii := "/"%char.

(** ** HttpHandler::pure_uri_path

<<
    uri = boost::algorithm::trim_copy(boost::to_lower_copy(uri));
    while (uri[uri.size()-1] == '/' && uri.size() > 1)
        uri = uri.substr(0, uri.size()-1);
    return uri;
>>
    The loop is run with a bound on its iterations; [pure_uri_path] gives it
    one more than the length of the string, which is never used up
    ([pure_uri_path_fuel]). *)

Fixpoint pure_uri_loop (fuel : nat) (uri : cxx_string) : outcome cxx_string :=
  match fuel with
  | O => Undefined OutOfFuel
  | S fuel' =>
      c ← at_index uri (size_t_sub (size uri) 1);
      if bool_decide (c = slash) && (1 <? size uri)
      then pure_uri_loop fuel' (substr uri 0 (size_t_sub (size uri) 1))
      else Returned uri
  end.

Definition pure_uri_path (uri : cxx_string) : outcome cxx_string :=
  let uri := trim_copy (to_lower_copy uri) in
  pure_uri_loop (S (length uri)) uri.


(** ** Handler records (struct HttpHandlerObject<T>)

    [T] is the handler type, [HttpGetHandler] or [HttpPostHandler]; the
    atomic members are read and written one at a time, so they are plain
    fields here. *)

Record HttpHandlerObject (T : Type) : Type := mkHttpHandlerObject {
  built_in_ : bool;
  success_cnt_ : Z;
  fail_cnt_ : Z;
  working_ : bool;
  handler_ : T
}.
Arguments mkHttpHandlerObject {T} _ _ _ _ _.
Arguments built_in_ {T} _.
Arguments success_cnt_ {T} _.
Arguments fail_cnt_ {T} _.
Arguments working_ {T} _.
Arguments handler_ {T} _.

(** The constructor
    [HttpHandlerObject(const T& t, bool built_in = false)]. *)
Definition new_HttpHandlerObject {T : Type} (t : T) (built_in : bool)
  : HttpHandlerObject T :=
  {| built_in_ := built_in; success_cnt_ := 0; fail_cnt_ := 0;
     working_ := true; handler_ := t |}.

(** [obj.working_ = on] *)
Definition set_working {T : Type} (on : bool) (obj : HttpHandlerObject T)
  : HttpHandlerObject T :=
  {| built_in_ := built_in_ obj; success_cnt_ := success_cnt_ obj;
     fail_cnt_ := fail_cnt_ obj; working_ := on; handler_ := handler_ obj |}.

(** ** Shared pointers and the record store *)

Abbreviation address := positive.

(** [std::shared_ptr<HttpHandlerObject<T>>]: empty, or the address of the
    record it shares. *)
Abbreviation HttpHandlerObjectPtr := (option address).

(** ** class UriRegex: a compiled [boost::regex] and the text it was
    compiled from; [str()] returns the text. *)
Record UriRegex : Type := mkUriRegex { str : cxx_string }.

(** ** The handler tables
    [std::vector<std::pair<UriRegex, HttpHandlerObjectPtr>>] *)
Abbreviation handler_table := (list (UriRegex * HttpHandlerObjectPtr)).

Section Operations.
Context {T : Type}.

Implicit Types (heap : gmap address (HttpHandlerObject T)).
Implicit Types (handlers it : handler_table).
Implicit Types (uri uri_r : cxx_string).

(** [p->...]: the record behind a pointer. *)
Definition deref heap (p : HttpHandlerObjectPtr)
  : outcome (address * HttpHandlerObject T) :=
  match p with
  | None => Undefined NullDereference
  | Some a =>
      match heap !! a with
      | Some obj => Returned (a, obj)
      | None => Undefined DanglingPointer
      end
  end.

(** Entry [i] of the table is the one that a scan by pattern text stops
    at: its text is [uri] and no entry before it has that text. *)
Definition located uri handlers (i : nat) (rgx : UriRegex)
    (p : HttpHandlerObjectPtr) : Prop :=
  handlers !! i = Some (rgx, p) ∧ str rgx = uri ∧
  ∀ j rgx' p', (j < i)%nat → handlers !! j = Some (rgx', p') → str rgx' ≠ uri.

(** *** do_check_exist_http_handler

<<
    for (auto it = handlers.begin(); it != handlers.end(); ++ it)
        if (it->first.str() == uri ) return true;
    return false;
>> *)
Fixpoint check_exist_scan uri it : bool :=
  match it with
  | [] => false
  | (rgx, _) :: rest =>
      if bool_decide (str rgx = uri) then true else check_exist_scan uri rest
  end.

Definition do_check_exist_http_handler uri_r handlers : outcome bool :=
  uri ← pure_uri_path uri_r;
  mret (check_exist_scan uri handlers).

(** *** do_switch_http_handler

<<
    for (auto it = handlers.begin(); it != handlers.end(); ++ it) {
        if (it->first.str() == uri ) {
            if (it->second->working_ == on) { return -1; }
            else { it->second->working_ = on; return 0; }
        }
    }
    return -2;
>>
    The table itself is not written; the record behind the entry is. *)
Fixpoint switch_scan uri (on : bool) it heap
  : outcome (Z * gmap address (HttpHandlerObject T)) :=
  match it with
  | [] => Returned (-2, heap)
  | (rgx, p) :: rest =>
      if bool_decide (str rgx = uri) then
        '(a, obj) ← deref heap p;
        if bool_decide (working_ obj = on) then Returned (-1, heap)
        else Returned (0, <[a := set_working on obj]> heap)
      else switch_scan uri on rest heap
  end.

Definition do_switch_http_handler uri_r (on : bool) handlers heap
  : outcome (Z * gmap address (HttpHandlerObject T)) :=
  uri ← pure_uri_path uri_r;
  switch_scan uri on handlers heap.

(** *** do_update_http_handler

    What the draining loop did: how many times [use_count()] was read to
    decide the control flow, and how many times [usleep(1000)] was
    called. *)
Record drain_log : Type := mkDrainLog {
  use_count_reads : nat;
  usleep_calls : nat
}.

Definition no_drain : drain_log := mkDrainLog 0 0.

Definition after_read (log : drain_log) : drain_log :=
  mkDrainLog (S (use_count_reads log)) (usleep_calls log).

Definition after_usleep (log : drain_log) : drain_log :=
  mkDrainLog (use_count_reads log) (S (usleep_calls log)).

(** The loop of lines 201-206: the pointer of the first entry whose text
    is [uri], or the empty pointer that [p_handler_object] started as. *)
Fixpoint update_scan uri it : HttpHandlerObjectPtr :=
  match it with
  | [] => None
  | (rgx, p) :: rest =>
      if bool_decide (str rgx = uri) then p else update_scan uri rest
  end.

(** [while (p_handler_object.use_count() > 2 && -- retry_count > 0)
        ::usleep(1000);]
    [use_count k] is the value that the k-th call of
    [p_handler_object.use_count()] returns: other threads drop their
    references while this one polls. [retry_count] only counts down from
    10, so it is a natural number and the loop recurses on it. *)
Fixpoint wait_drained (use_count : nat → Z) (retry_count : nat)
    (log : drain_log) : drain_log :=
  let n := use_count (use_count_reads log) in
  let log := after_read log in
  match retry_count with
  | O => log
  | S retry_count' =>
      if (2 <? n) && (0 <? Z.of_nat retry_count')
      then wait_drained use_count retry_count' (after_usleep log)
      else log
  end.

(**
<<
    Ptr p_handler_object{};
    std::string uri = pure_uri_path(uri_r);
    auto it = handlers.begin();
    for (auto it = handlers.begin(); it != handlers.end(); ++ it) {
        if (it->first.str() == uri ) { p_handler_object = it->second; break; }
    }
    if (p_handler_object->built_in_) { return -1; }
    int retry_count = 10;
    if (p_handler_object) {
        while (p_handler_object.use_count() > 2 && -- retry_count > 0) { ::usleep(1000); }
        if (p_handler_object.use_count() > 2) { goto ret; }
        SAFE_ASSERT(it < handlers.end());
        handlers.erase(it);
    }
ret:
    return -2;
>>
    The [it] of the [for] statement is a variable of its own, so the [it]
    that is erased is the one set to [handlers.begin()] before the loop.
    The argument [on] is not used. No member of a record is written, so
    the store is not part of the result. [SAFE_ASSERT] is defined outside
    this header; where its condition is false the erase that follows is
    undefined, whatever the macro does. *)
Definition do_update_http_handler (use_count : nat → Z) uri_r (on : bool)
    handlers heap : outcome (Z * handler_table * drain_log) :=
  uri ← pure_uri_path uri_r;
  let it := 0%nat in
  let p_handler_object := update_scan uri handlers in
  '(_, obj) ← deref heap p_handler_object;
  if built_in_ obj then Returned (-1, handlers, no_drain)
  else
    let retry_count := 10%nat in
    match p_handler_object with
    | Some _ =>
        let log := wait_drained use_count retry_count no_drain in
        let n := use_count (use_count_reads log) in
        let log := after_read log in
        if 2 <? n then Returned (-2, handlers, log)
        else if bool_decide (it < length handlers)%nat
        then Returned (-2, delete it handlers, log)
        else Undefined PastTheEnd
    | None => Returned (-2, handlers, no_drain)
    end.

(** *** Finding a handler for a request

    Modelled from the spec: [find_http_get_handler] and
    [find_http_post_handler] are declared in HttpHandler.h (lines 111-112)
    and defined outside it. Spec 4.2: "entries tested in registration order;
    first enabled entry whose matcher accepts the normalized URI wins"; the
    result is a handler handle or NotFound ([None]). [regex_match uri rgx]
    is [boost::regex_match] of the URI against the compiled pattern. *)
Definition enabled heap (p : HttpHandlerObjectPtr) : bool :=
  match p with
  | Some a =>
      match heap !! a with
      | Some obj => working_ obj
      | None => false
      end
  | None => false
  end.

(** An entry that may serve [uri]: its record is enabled and its matcher
    accepts [uri]. *)
Definition candidate (regex_match : cxx_string → UriRegex → bool) uri heap
    (e : UriRegex * HttpHandlerObjectPtr) : bool :=
  enabled heap e.2 && regex_match uri e.1.

Fixpoint find_scan (regex_match : cxx_string → UriRegex → bool) uri it heap
  : option HttpHandlerObjectPtr :=
  match it with
  | [] => None
  | (rgx, p) :: rest =>
      if candidate regex_match uri heap (rgx, p) then Some p
      else find_scan regex_match uri rest heap
  end.

Definition find_http_handler (regex_match : cxx_string → UriRegex → bool)
    uri_r handlers heap : outcome (option HttpHandlerObjectPtr) :=
  uri ← pure_uri_path uri_r;
  mret (find_scan regex_match uri handlers heap).

(** *** Registering a handler

    Modelled from the spec: [register_http_get_handler] and
    [register_http_post_handler] are declared in HttpHandler.h (lines
    107-108) and defined outside it. Spec 4.2: "appended at the end, which
    is the lowest priority; rejects duplicate pattern text", on the
    normalized pattern; the record is a newly constructed one. *)
Inductive register_result : Type := RegisterOk | DuplicatePattern.

Definition register_http_handler uri_r (handler : T) (built_in : bool)
    handlers heap
  : outcome (register_result * handler_table * gmap address (HttpHandlerObject T)) :=
  uri ← pure_uri_path uri_r;
  if check_exist_scan uri handlers then Returned (DuplicatePattern, handlers, heap)
  else
    let a := fresh (dom heap) in
    Returned (RegisterOk, handlers ++ [(mkUriRegex uri, Some a)],
              <[a := new_HttpHandlerObject handler built_in]> heap).

End Operations.

(** ** The lock of class HttpHandler

    The class has one [boost::shared_mutex rwlock_] and the two tables
    [post_handler_] and [get_handler_]. Each operation takes [rwlock_] for
    the whole of its body: [do_check_exist_http_handler] with a
    [boost::shared_lock], [do_switch_http_handler] and
    [do_update_http_handler] with a [boost::lock_guard]. *)

(** The state of a [boost::shared_mutex]: the number of shared holders,
    whether it is held exclusively, and whether new shared holders are kept
    out because a caller has asked for the exclusive lock. *)
Record shared_mutex : Type := mkSharedMutex {
  shared_count : nat;
  exclusive : bool;
  exclusive_waiting_blocked : bool
}.

Definition unlocked : shared_mutex := mkSharedMutex 0 false false.

Definition can_lock (m : shared_mutex) : bool :=
  negb (0 <? shared_count m)%nat && negb (exclusive m).

Definition can_lock_shared (m : shared_mutex) : bool :=
  negb (exclusive m) && negb (exclusive_waiting_blocked m).

(** What asking for a lock comes to: the caller has it, or the caller
    waits; either way with the state the call has left so far. *)
Inductive attempt (A : Type) : Type :=
  | Acquired (a : A)
  | Waiting (a : A).
Arguments Acquired {A} a.
Arguments Waiting {A} a.

(** [lock()]: the caller announces itself, which keeps new shared holders
    out, and has the lock once nobody holds it in either way. *)
Definition shared_mutex_lock (m : shared_mutex) : attempt shared_mutex :=
  let announced := mkSharedMutex (shared_count m) (exclusive m) true in
  if can_lock announced
  then Acquired (mkSharedMutex (shared_count m) true true)
  else Waiting announced.

(** [lock_shared()]: the caller has the lock unless it is held exclusively
    or a caller waits for the exclusive lock. *)
Definition shared_mutex_lock_shared (m : shared_mutex) : attempt shared_mutex :=
  if can_lock_shared m
  then Acquired (mkSharedMutex (S (shared_count m)) (exclusive m)
                   (exclusive_waiting_blocked m))
  else Waiting m.

Inductive Method : Type := GET | POST.

(** The operations of the class, one GET and one POST entry point each:
    the three that the header defines (lines 80-104) and the two that it
    declares (lines 107-112). *)
Inductive Operation : Type := CheckExist | Switch | Update | Find | Register.

Inductive lock_mode : Type := SharedLock | LockGuard.

(** Modelled from the spec: [find_http_get_handler],
    [find_http_post_handler], [register_http_get_handler] and
    [register_http_post_handler] are declared in HttpHandler.h (lines
    107-112) and defined outside it. Spec 5: "Shared-read access: exists,
    find. Exclusive-write access: register, set_enabled, replace"; the lock
    they take is the one lock the class has. *)
Definition find_lock_mode : lock_mode := SharedLock.
Definition register_lock_mode : lock_mode := LockGuard.

Definition lock_mode_of (op : Operation) : lock_mode :=
  match op with
  | CheckExist => SharedLock
  | Switch => LockGuard
  | Update => LockGuard
  | Find => find_lock_mode
  | Register => register_lock_mode
  end.

Record HttpHandler : Type := mkHttpHandler {
  rwlock_ : shared_mutex;
  post_handler_ : handler_table;
  get_handler_ : handler_table
}.

Definition with_rwlock (m : shared_mutex) (h : HttpHandler) : HttpHandler :=
  mkHttpHandler m (post_handler_ h) (get_handler_ h).

(** The table an entry point passes to the template. *)
Definition table_of (m : Method) (h : HttpHandler) : handler_table :=
  match m with
  | GET => get_handler_ h
  | POST => post_handler_ h
  end.

(** The entry points of lines 80-104: each hands its own table to the
    template. *)
Definition check_exist_http_get_handler (uri_r : cxx_string) (h : HttpHandler)
  : outcome bool :=
  do_check_exist_http_handler uri_r (get_handler_ h).

Definition check_exist_http_post_handler (uri_r : cxx_string) (h : HttpHandler)
  : outcome bool :=
  do_check_exist_http_handler uri_r (post_handler_ h).

Definition switch_http_get_handler {G : Type} (uri_r : cxx_string) (on : bool)
    (h : HttpHandler) (heap : gmap address (HttpHandlerObject G)) :=
  do_switch_http_handler uri_r on (get_handler_ h) heap.

Definition switch_http_post_handler {P : Type} (uri_r : cxx_string) (on : bool)
    (h : HttpHandler) (heap : gmap address (HttpHandlerObject P)) :=
  do_switch_http_handler uri_r on (post_handler_ h) heap.

Definition update_http_get_handler {G : Type} (use_count : nat → Z)
    (uri_r : cxx_string) (on : bool) (h : HttpHandler)
    (heap : gmap address (HttpHandlerObject G)) :=
  do_update_http_handler use_count uri_r on (get_handler_ h) heap.

Definition update_http_post_handler {P : Type} (use_count : nat → Z)
    (uri_r : cxx_string) (on : bool) (h : HttpHandler)
    (heap : gmap address (HttpHandlerObject P)) :=
  do_update_http_handler use_count uri_r on (post_handler_ h) heap.

(** The lock an entry point takes: whatever the table it was given, the
    template locks the member [rwlock_]. *)
Definition lock_of (m : Method) (h : HttpHandler) : shared_mutex :=
  rwlock_ h.

(** An operation on the [m] table asks for its lock: it reaches its body
    ([Acquired]) or it waits ([Waiting]). *)
Definition enter (m : Method) (op : Operation) (h : HttpHandler)
  : attempt HttpHandler :=
  let asked :=
    match lock_mode_of op with
    | SharedLock => shared_mutex_lock_shared (lock_of m h)
    | LockGuard => shared_mutex_lock (lock_of m h)
    end in
  match asked with
  | Acquired l => Acquired (with_rwlock l h)
  | Waiting l => Waiting (with_rwlock l h)
  end.

(** [op1] on table [m1] blocks [op2] on table [m2] in the state [h]: alone,
    [op2] would go ahead, but once [op1] is in its body [op2] has to
    wait. *)
Definition blocks (m1 : Method) (op1 : Operation)
    (m2 : Method) (op2 : Operation) (h : HttpHandler) : Prop :=
  (∃ h2, enter m2 op2 h = Acquired h2) ∧
  ∃ h1 h2, enter m1 op1 h = Acquired h1 ∧ enter m2 op2 h1 = Waiting h2.

(** ** A small table to run the operations on

    Handlers are named by strings. "/a" is an ordinary enabled record, "/b"
    an ordinary record that was switched off, "/" a built-in one. *)

Definition demo_handlers : handler_table :=
  [ (mkUriRegex (lit "/a"), Some 1%positive);
    (mkUriRegex (lit "/b"), Some 2%positive);
    (mkUriRegex (lit "/"), Some 3%positive) ].

Definition demo_heap : gmap address (HttpHandlerObject string) :=
  {[ 1%positive := new_HttpHandlerObject "A"%string false;
     2%positive := set_working false (new_HttpHandlerObject "B"%string false);
     3%positive := new_HttpHandlerObject "default"%string true ]}.

(** A matcher to run the lookup with: the pattern text is a prefix of the
    URI. *)
Definition prefix_match (uri : cxx_string) (rgx : UriRegex) : bool :=
  bool_decide (str rgx `prefix_of` uri).

Definition idle : HttpHandler := mkHttpHandler unlocked [] demo_handlers.

(** ** Tables whose pointers all own a record

    Every entry holds a pointer that is not empty and the store has a
    record at its address, as for pointers made by [std::make_shared]. *)
Definition table_wf {T : Type} (handlers : handler_table)
    (heap : gmap address (HttpHandlerObject T)) : Prop :=
  ∀ rgx p, (rgx, p) ∈ handlers → ∃ a obj, p = Some a ∧ heap !! a = Some obj.

(** ** Facts about chars and trimming *)

Ltac ascii_cases c :=
  destruct c as [[] [] [] [] [] [] [] []]; vm_compute; try reflexivity; try congruence.

Lemma tolower_idem (c : ascii) : tolower (tolower c) = tolower c.
Proof. ascii_cases c. Qed.

Lemma isspace_tolower (c : ascii) : isspace (tolower c) = isspace c.
Proof. ascii_cases c. Qed.

Lemma isspace_slash (c : ascii) : isspace c = true → c ≠ slash.
Proof. intros H ->. vm_compute in H. discriminate. Qed.

Lemma to_lower_copy_fixed (s : cxx_string) :
  Forall (λ c, tolower c = c) s → to_lower_copy s = s.
Proof.
  unfold to_lower_copy. induction 1 as [|c s Hc _ IH]; csimpl; [done|].
  by rewrite Hc, IH.
Qed.

Lemma to_lower_copy_lowered (s : cxx_string) :
  Forall (λ c, tolower c = c) (to_lower_copy s).
Proof.
  unfold to_lower_copy. induction s as [|c s IH]; csimpl; constructor; auto using tolower_idem.
Qed.

Lemma trim_begin_suffix (s : cxx_string) : trim_begin s `suffix_of` s.
Proof.
  induction s as [|c s IH]; simpl; [done|].
  destruct (isspace c); [by apply suffix_cons_r | done].
Qed.

Lemma trim_begin_head (s : cxx_string) c :
  head (trim_begin s) = Some c → isspace c = false.
Proof.
  induction s as [|d s IH]; simpl; [done|].
  destruct (isspace d) eqn:E; [done|]. simpl. by intros [= <-].
Qed.

Lemma trim_begin_id (s : cxx_string) :
  (∀ c, head s = Some c → isspace c = false) → trim_begin s = s.
Proof.
  destruct s as [|c s]; simpl; [done|]. intros H. by rewrite (H c eq_refl).
Qed.

Lemma trim_begin_spaces (s : cxx_string) :
  Forall (λ c, isspace c = true) s → trim_begin s = [].
Proof. induction 1 as [|c s Hc _ IH]; simpl; [done|]. by rewrite Hc. Qed.

Lemma trim_end_prefix (s : cxx_string) : trim_end s `prefix_of` s.
Proof.
  unfold trim_end. destruct (trim_begin_suffix (reverse s)) as [k Hk].
  exists (reverse k). apply (inj reverse).
  by rewrite reverse_app, !reverse_involutive.
Qed.

Lemma trim_end_id (s : cxx_string) :
  (∀ c, last s = Some c → isspace c = false) → trim_end s = s.
Proof.
  intros H. unfold trim_end. rewrite trim_begin_id; [apply reverse_involutive|].
  intros c Hc. apply H. by rewrite <-head_reverse.
Qed.

Lemma trim_end_spaces (s : cxx_string) :
  Forall (λ c, isspace c = true) s → trim_end s = [].
Proof.
  intros H. unfold trim_end. rewrite trim_begin_spaces; [done|].
  by apply Forall_reverse.
Qed.

Lemma trim_copy_sublist (s : cxx_string) (P : ascii → Prop) :
  Forall P s → Forall P (trim_copy s).
Proof.
  intros H. unfold trim_copy.
  destruct (trim_begin_suffix (trim_end s)) as [k1 Hk1].
  destruct (trim_end_prefix s) as [k2 Hk2].
  rewrite Hk2, Hk1 in H. rewrite !Forall_app in H. tauto.
Qed.

Lemma trim_copy_length (s : cxx_string) : (length (trim_copy s) ≤ length s)%nat.
Proof.
  unfold trim_copy.
  pose proof (suffix_length _ _ (trim_begin_suffix (trim_end s))).
  pose proof (prefix_length _ _ (trim_end_prefix s)). lia.
Qed.

Lemma trim_copy_head (s : cxx_string) c :
  head (trim_copy s) = Some c → isspace c = false.
Proof. apply trim_begin_head. Qed.

Lemma trim_copy_id (s : cxx_string) :
  (∀ c, head s = Some c → isspace c = false) →
  (∀ c, last s = Some c → isspace c = false) →
  trim_copy s = s.
Proof.
  intros Hh Hl. unfold trim_copy. rewrite (trim_end_id s Hl). by apply trim_begin_id.
Qed.

Lemma trim_copy_spaces (s : cxx_string) :
  Forall (λ c, isspace c = true) s → trim_copy s = [].
Proof. intros H. unfold trim_copy. by rewrite (trim_end_spaces s H). Qed.

(** ** The loop of pure_uri_path, one iteration at a time *)

Lemma size_t_sub_pred (n : Z) : 0 < n < SIZE_T_MODULUS → size_t_sub n 1 = n - 1.
Proof. intros H. unfold size_t_sub. apply Z.mod_small. lia. Qed.

Lemma representable_le (s t : cxx_string) :
  (length s ≤ length t)%nat → representable t → representable s.
Proof. unfold representable. lia. Qed.

Lemma pure_uri_loop_nil (fuel : nat) :
  pure_uri_loop (S fuel) [] = Undefined OutOfBounds.
Proof. reflexivity. Qed.

Lemma pure_uri_loop_snoc (fuel : nat) (s : cxx_string) (c : ascii) :
  representable (s ++ [c]) →
  pure_uri_loop (S fuel) (s ++ [c]) =
    if bool_decide (c = slash) && bool_decide (s ≠ [])
    then pure_uri_loop fuel s
    else Returned (s ++ [c]).
Proof.
  unfold representable. rewrite length_app. simpl length. intros Hr.
  cbn [pure_uri_loop]. unfold size. rewrite length_app. simpl length.
  rewrite size_t_sub_pred by lia.
  replace (Z.of_nat (length s + 1) - 1) with (Z.of_nat (length s)) by lia.
  unfold at_index, size. rewrite length_app. simpl length.
  destruct (Z.ltb_spec (Z.of_nat (length s)) (Z.of_nat (length s + 1))); [|lia].
  rewrite Nat2Z.id, lookup_app_r, Nat.sub_diag by lia. simpl.
  replace (1 <? Z.of_nat (length s + 1)) with (bool_decide (s ≠ [])).
  - unfold substr. rewrite Nat2Z.id. change (Z.to_nat 0) with 0%nat.
    by rewrite drop_0, take_app_length.
  - destruct s; simpl length; [reflexivity|].
    rewrite bool_decide_eq_true_2 by done. symmetry. apply Z.ltb_lt. lia.
Qed.

Lemma pure_uri_loop_returns (t : cxx_string) :
  ∀ fuel, representable t → t ≠ [] → (length t < fuel)%nat →
  ∃ y, pure_uri_loop fuel t = Returned y ∧ y ≠ [] ∧ y `prefix_of` t ∧
       (length y = 1%nat ∨ last y ≠ Some slash).
Proof.
  induction t as [|c s IH] using rev_ind; [done|].
  intros fuel Hr _ Hf. rewrite length_app in Hf. simpl in Hf.
  destruct fuel as [|fuel]; [lia|].
  rewrite pure_uri_loop_snoc by done.
  destruct (bool_decide (c = slash) && bool_decide (s ≠ [])) eqn:E.
  - apply andb_prop in E as [_ Hs%bool_decide_eq_true].
    destruct (IH fuel) as (y & Hy & Hne & Hp & Hl); [|done|lia|].
    { eapply representable_le; [|exact Hr]. rewrite length_app. lia. }
    exists y. repeat split; [done|done| |done].
    by apply prefix_app_r.
  - exists (s ++ [c]). repeat split; [by destruct s|done|].
    apply andb_false_iff in E as [E%bool_decide_eq_false|E%bool_decide_eq_false].
    + right. rewrite last_snoc. congruence.
    + left. destruct s; [done|]. by destruct E.
Qed.

Lemma pure_uri_loop_fixed (fuel : nat) (y : cxx_string) :
  representable y → y ≠ [] → (length y = 1%nat ∨ last y ≠ Some slash) →
  pure_uri_loop (S fuel) y = Returned y.
Proof.
  destruct y as [|c s _] using rev_ind; [done|]. intros Hr _ Hl.
  rewrite pure_uri_loop_snoc by done.
  destruct (bool_decide (c = slash) && bool_decide (s ≠ [])) eqn:E; [|done].
  apply andb_prop in E as [->%bool_decide_eq_true Hs%bool_decide_eq_true].
  destruct Hl as [Hl|Hl].
  - rewrite length_app in Hl. simpl in Hl. destruct s; [done|simpl in Hl; lia].
  - by rewrite last_snoc in Hl.
Qed.

(** What [pure_uri_path] does on every string a [std::string] can hold: an
    input with nothing but whitespace indexes the empty string at
    [size_t(0) - 1]; every other input returns, and the loop bound is never
    reached. *)
Lemma pure_uri_path_cases (x : cxx_string) :
  representable x →
  (trim_copy (to_lower_copy x) = [] ∧ pure_uri_path x = Undefined OutOfBounds) ∨
  (∃ y, pure_uri_path x = Returned y ∧ y ≠ [] ∧
        y `prefix_of` trim_copy (to_lower_copy x) ∧
        (length y = 1%nat ∨ last y ≠ Some slash)).
Proof.
  intros Hr. unfold pure_uri_path.
  destruct (trim_copy (to_lower_copy x)) as [|c t] eqn:Et; [by left|right].
  apply pure_uri_loop_returns; [|done|lia].
  eapply representable_le; [|exact Hr].
  rewrite <-Et. etrans; [apply trim_copy_length|].
  unfold to_lower_copy. by rewrite length_fmap.
Qed.

Lemma pure_uri_path_fuel (x : cxx_string) :
  representable x → pure_uri_path x ≠ Undefined OutOfFuel.
Proof.
  intros Hr. destruct (pure_uri_path_cases x Hr) as [[_ ->]|(y & -> & _)]; done.
Qed.

(** ** Scanning a table by pattern text *)

Section Scans.
Context {T : Type}.
Implicit Types (heap : gmap address (HttpHandlerObject T)).
Implicit Types (handlers : handler_table) (uri : cxx_string).

Lemma located_cons_ne uri rgx0 p0 handlers i rgx p :
  str rgx0 ≠ uri →
  located uri ((rgx0, p0) :: handlers) i rgx p →
  ∃ i', i = S i' ∧ located uri handlers i' rgx p.
Proof.
  intros Hne (Hi & Hs & Hfirst). destruct i as [|i']; simpl in Hi.
  - injection Hi as -> ->. done.
  - exists i'. split; [done|]. repeat split; [done..|].
    intros j rgx' p' Hj Hl. apply (Hfirst (S j) rgx' p'); [lia|done].
Qed.

Lemma located_cons_eq uri rgx0 p0 handlers i rgx p :
  str rgx0 = uri →
  located uri ((rgx0, p0) :: handlers) i rgx p →
  i = 0%nat ∧ rgx = rgx0 ∧ p = p0.
Proof.
  intros Heq (Hi & Hs & Hfirst). destruct i as [|i'].
  - simpl in Hi. by injection Hi as -> ->.
  - destruct (Hfirst 0%nat rgx0 p0); [lia|done|done].
Qed.

Lemma check_exist_scan_false uri handlers :
  check_exist_scan uri handlers = false ↔
  ∀ rgx p, (rgx, p) ∈ handlers → str rgx ≠ uri.
Proof.
  induction handlers as [|[rgx0 p0] handlers IH]; simpl.
  - split; [|done]. intros _ rgx p Hin. by apply elem_of_nil in Hin.
  - case_bool_decide as E.
    + split; [done|]. intros H. destruct (H rgx0 p0); [left|done].
    + rewrite IH. split.
      * intros H rgx p [[= -> ->]|Hin]%elem_of_cons; eauto.
      * intros H rgx p Hin. apply (H rgx p). by right.
Qed.

Lemma check_exist_scan_true uri handlers :
  check_exist_scan uri handlers = true ↔ ∃ i rgx p, located uri handlers i rgx p.
Proof.
  induction handlers as [|[rgx0 p0] handlers IH]; simpl.
  - split; [done|]. by intros (i & rgx & p & Hi & _).
  - case_bool_decide as E.
    + split; [|done]. intros _. exists 0%nat, rgx0, p0.
      repeat split; [done|]. intros j ?? Hj. lia.
    + rewrite IH. split.
      * intros (i & rgx & p & Hi & Hs & Hfirst). exists (S i), rgx, p.
        repeat split; [done..|]. intros [|j] rgx' p' Hj Hl; simpl in Hl.
        -- by injection Hl as <- <-.
        -- apply (Hfirst j rgx' p'); [lia|done].
      * intros (i & rgx & p & Hloc).
        destruct (located_cons_ne _ _ _ _ _ _ _ E Hloc) as (i' & _ & Hloc').
        eauto.
Qed.

Lemma update_scan_located uri handlers i rgx p :
  located uri handlers i rgx p → update_scan uri handlers = p.
Proof.
  revert i. induction handlers as [|[rgx0 p0] handlers IH]; intros i Hloc.
  - by destruct Hloc as [Hi _].
  - simpl. case_bool_decide as E.
    + by destruct (located_cons_eq _ _ _ _ _ _ _ E Hloc) as (_ & _ & ->).
    + destruct (located_cons_ne _ _ _ _ _ _ _ E Hloc) as (i' & _ & Hloc'). eauto.
Qed.

Lemma update_scan_absent uri handlers :
  check_exist_scan uri handlers = false → update_scan uri handlers = None.
Proof.
  induction handlers as [|[rgx0 p0] handlers IH]; simpl; [done|].
  by case_bool_decide.
Qed.

Lemma switch_scan_located uri on handlers heap i rgx a obj :
  located uri handlers i rgx (Some a) → heap !! a = Some obj →
  switch_scan uri on handlers heap =
    if bool_decide (working_ obj = on) then Returned (-1, heap)
    else Returned (0, <[a := set_working on obj]> heap).
Proof.
  intros Hloc Ha. revert i Hloc.
  induction handlers as [|[rgx0 p0] handlers IH]; intros i Hloc.
  - by destruct Hloc as [Hi _].
  - simpl. destruct (decide (str rgx0 = uri)) as [E|E].
    + rewrite (bool_decide_eq_true_2 _ E).
      destruct (located_cons_eq _ _ _ _ _ _ _ E Hloc) as (_ & _ & <-).
      simpl. by rewrite Ha.
    + rewrite (bool_decide_eq_false_2 _ E).
      destruct (located_cons_ne _ _ _ _ _ _ _ E Hloc) as (i' & _ & Hloc'). eauto.
Qed.

Lemma switch_scan_absent uri on handlers heap :
  check_exist_scan uri handlers = false →
  switch_scan uri on handlers heap = Returned (-2, heap).
Proof.
  induction handlers as [|[rgx0 p0] handlers IH]; simpl; [done|].
  by case_bool_decide.
Qed.

(** ** The draining loop *)

Lemma wait_drained_at_minimum (use_count : nat → Z) retry_count log :
  use_count (use_count_reads log) ≤ 2 →
  wait_drained use_count retry_count log = after_read log.
Proof.
  intros H. destruct retry_count as [|r]; simpl; [done|].
  destruct (Z.ltb_spec 2 (use_count (use_count_reads log))); [lia|done].
Qed.

Lemma wait_drained_step (use_count : nat → Z) r log :
  wait_drained use_count (S r) log =
    if (2 <? use_count (use_count_reads log)) && (0 <? Z.of_nat r)
    then wait_drained use_count r (after_usleep (after_read log))
    else after_read log.
Proof. reflexivity. Qed.

Lemma wait_drained_busy (use_count : nat → Z) r :
  ∀ log,
  (∀ k, (use_count_reads log ≤ k < use_count_reads log + S r)%nat → 2 < use_count k) →
  wait_drained use_count (S r) log =
    mkDrainLog (use_count_reads log + S r) (usleep_calls log + r).
Proof.
  induction r as [|r IH]; intros [reads sleeps] H; simpl in H.
  - simpl. rewrite andb_false_r. unfold after_read. simpl. f_equal; lia.
  - rewrite wait_drained_step. cbn [use_count_reads].
    destruct (Z.ltb_spec 2 (use_count reads)) as [_|Hle].
    2:{ specialize (H reads). lia. }
    destruct (Z.ltb_spec 0 (Z.of_nat (S r))); [|lia]. cbn [andb].
    rewrite IH.
    + unfold after_usleep, after_read. simpl. f_equal; lia.
    + unfold after_usleep, after_read. simpl. intros k Hk. apply H. lia.
Qed.

End Scans.

(** ** do_update_http_handler *)

Section Update.
Context {T : Type}.
Implicit Types (heap : gmap address (HttpHandlerObject T)).
Implicit Types (handlers : handler_table) (uri uri_r : cxx_string).
Implicit Types (use_count : nat → Z).

Lemma deref_Some heap a obj :
  heap !! a = Some obj → deref heap (Some a) = Returned (a, obj).
Proof. intros H. unfold deref. by rewrite H. Qed.

Lemma located_length uri handlers i rgx p :
  located uri handlers i rgx p → (0 < length handlers)%nat.
Proof. intros [Hi _]. apply lookup_lt_Some in Hi. lia. Qed.

(** C1 (the code departs from the claim). A record that is not built in is
    located by its pattern text and every reading of its use count is at the
    minimum 2. The claim asks for that entry to be replaced in place and for
    an Ok result; the code returns -2, the value of its failure exit, erases
    the entry at [handlers.begin()] whatever the position of the located
    one, and installs nothing. *)
Theorem do_update_http_handler_drained use_count uri_r uri on handlers heap
    i rgx a obj :
  pure_uri_path uri_r = Returned uri →
  located uri handlers i rgx (Some a) →
  heap !! a = Some obj →
  built_in_ obj = false →
  (∀ k, use_count k ≤ 2) →
  do_update_http_handler use_count uri_r on handlers heap =
    Returned (-2, delete 0%nat handlers, mkDrainLog 2 0).
Proof.
  intros Hpath Hloc Ha Hb Hmin. unfold do_update_http_handler.
  rewrite Hpath. cbn [mbind outcome_bind].
  rewrite (update_scan_located _ _ _ _ _ Hloc), (deref_Some _ _ _ Ha).
  cbn [mbind outcome_bind]. rewrite Hb.
  rewrite wait_drained_at_minimum by apply Hmin.
  cbn [after_read no_drain use_count_reads usleep_calls].
  destruct (Z.ltb_spec 2 (use_count 1%nat)) as [Hlt|_].
  { specialize (Hmin 1%nat). lia. }
  rewrite bool_decide_eq_true_2; [done|]. by eapply located_length.
Qed.

(** C2 (the code departs from the claim). No entry of the table has the
    normalized pattern text: [p_handler_object] is still empty when
    [p_handler_object->built_in_] is evaluated, so the call does not return a
    NotFound value but dereferences a null pointer. *)
Theorem do_update_http_handler_not_found use_count uri_r uri on handlers heap :
  pure_uri_path uri_r = Returned uri →
  (∀ rgx p, (rgx, p) ∈ handlers → str rgx ≠ uri) →
  do_update_http_handler use_count uri_r on handlers heap =
    Undefined NullDereference.
Proof.
  intros Hpath Habs%check_exist_scan_false. unfold do_update_http_handler.
  rewrite Hpath. cbn [mbind outcome_bind].
  by rewrite (update_scan_absent _ _ Habs).
Qed.

(** C3. A record that is not built in is located by its pattern text and
    every reading of its use count within the retry budget is above the
    minimum 2: the call returns -2 through its failure exit after 11
    readings and 9 sleeps of 1000 microseconds, and the table it leaves is
    the table it was given, so the old entry is at its position and every
    lookup finds what it found before. *)
Theorem do_update_http_handler_busy use_count uri_r uri on handlers heap
    i rgx a obj :
  pure_uri_path uri_r = Returned uri →
  located uri handlers i rgx (Some a) →
  heap !! a = Some obj →
  built_in_ obj = false →
  (∀ k, (k ≤ 10)%nat → 2 < use_count k) →
  ∃ handlers',
    do_update_http_handler use_count uri_r on handlers heap =
      Returned (-2, handlers', mkDrainLog 11 9) ∧
    handlers' = handlers ∧
    located uri handlers' i rgx (Some a) ∧
    ∀ regex_match u,
      find_http_handler regex_match u handlers' heap =
      find_http_handler regex_match u handlers heap.
Proof.
  intros Hpath Hloc Ha Hb Hbusy. exists handlers.
  split; [|done]. unfold do_update_http_handler.
  rewrite Hpath. cbn [mbind outcome_bind].
  rewrite (update_scan_located _ _ _ _ _ Hloc), (deref_Some _ _ _ Ha).
  cbn [mbind outcome_bind]. rewrite Hb.
  rewrite wait_drained_busy.
  2:{ cbn [no_drain use_count_reads]. intros k Hk. apply Hbusy. lia. }
  cbn [after_read no_drain use_count_reads usleep_calls Nat.add].
  destruct (Z.ltb_spec 2 (use_count 10%nat)) as [_|Hle]; [done|].
  specialize (Hbusy 10%nat). lia.
Qed.

(** C7. A built-in record is located by its pattern text: the call returns
    -1 without reading the use count or sleeping, whatever the use count
    is, and the table it leaves is the table it was given. *)
Theorem do_update_http_handler_built_in use_count uri_r uri on handlers heap
    i rgx a obj :
  pure_uri_path uri_r = Returned uri →
  located uri handlers i rgx (Some a) →
  heap !! a = Some obj →
  built_in_ obj = true →
  ∃ handlers' log,
    do_update_http_handler use_count uri_r on handlers heap =
      Returned (-1, handlers', log) ∧
    use_count_reads log = 0%nat ∧ usleep_calls log = 0%nat ∧
    handlers' = handlers ∧
    located uri handlers' i rgx (Some a) ∧
    ∀ regex_match u,
      find_http_handler regex_match u handlers' heap =
      find_http_handler regex_match u handlers heap.
Proof.
  intros Hpath Hloc Ha Hb. exists handlers, no_drain.
  split; [|done]. unfold do_update_http_handler.
  rewrite Hpath. cbn [mbind outcome_bind].
  rewrite (update_scan_located _ _ _ _ _ Hloc), (deref_Some _ _ _ Ha).
  cbn [mbind outcome_bind]. by rewrite Hb.
Qed.

End Update.

(** ** do_switch_http_handler and the constructor *)

Section Switch.
Context {T : Type}.
Implicit Types (heap : gmap address (HttpHandlerObject T)).
Implicit Types (handlers : handler_table) (uri uri_r : cxx_string).

Lemma do_switch_http_handler_located uri_r uri on handlers heap i rgx a obj :
  pure_uri_path uri_r = Returned uri →
  located uri handlers i rgx (Some a) →
  heap !! a = Some obj →
  do_switch_http_handler uri_r on handlers heap =
    if bool_decide (working_ obj = on) then Returned (-1, heap)
    else Returned (0, <[a := set_working on obj]> heap).
Proof.
  intros Hpath Hloc Ha. unfold do_switch_http_handler.
  rewrite Hpath. cbn [mbind outcome_bind]. by eapply switch_scan_located.
Qed.

(** C6. The record located by the pattern text is disabled: switching it on
    returns 0 and writes [working_ = true] into that record, every other
    member and every other record staying as they were; switching it on
    again straight away returns -1 and writes nothing. *)
Theorem do_switch_http_handler_on_twice uri_r uri handlers heap i rgx a obj :
  pure_uri_path uri_r = Returned uri →
  located uri handlers i rgx (Some a) →
  heap !! a = Some obj →
  working_ obj = false →
  ∃ heap' obj',
    do_switch_http_handler uri_r true handlers heap = Returned (0, heap') ∧
    heap' !! a = Some obj' ∧
    working_ obj' = true ∧
    built_in_ obj' = built_in_ obj ∧
    success_cnt_ obj' = success_cnt_ obj ∧
    fail_cnt_ obj' = fail_cnt_ obj ∧
    handler_ obj' = handler_ obj ∧
    (∀ b, b ≠ a → heap' !! b = heap !! b) ∧
    do_switch_http_handler uri_r true handlers heap' = Returned (-1, heap').
Proof.
  intros Hpath Hloc Ha Hw.
  exists (<[a := set_working true obj]> heap), (set_working true obj).
  split.
  { rewrite (do_switch_http_handler_located _ _ _ _ _ _ _ _ _ Hpath Hloc Ha).
    rewrite bool_decide_eq_false_2; [done|]. by rewrite Hw. }
  split; [apply lookup_insert_eq|].
  do 5 (split; [done|]).
  split; [intros b Hb; by apply lookup_insert_ne|].
  rewrite (do_switch_http_handler_located _ uri true handlers _ i rgx a
             (set_working true obj) Hpath Hloc); [done|].
  apply lookup_insert_eq.
Qed.

(** C9. A newly constructed record is enabled and its counters are zero;
    when the record located by a pattern text is a newly constructed one,
    it is enabled without a call of the switch, and switching it on returns
    -1 and writes nothing. *)
Theorem new_HttpHandlerObject_working :
  (∀ (t : T) built_in,
     working_ (new_HttpHandlerObject t built_in) = true ∧
     success_cnt_ (new_HttpHandlerObject t built_in) = 0 ∧
     fail_cnt_ (new_HttpHandlerObject t built_in) = 0 ∧
     built_in_ (new_HttpHandlerObject t built_in) = built_in ∧
     handler_ (new_HttpHandlerObject t built_in) = t) ∧
  (∀ uri_r uri handlers heap i rgx a (t : T) built_in,
     pure_uri_path uri_r = Returned uri →
     located uri handlers i rgx (Some a) →
     heap !! a = Some (new_HttpHandlerObject t built_in) →
     enabled heap (Some a) = true ∧
     do_switch_http_handler uri_r true handlers heap = Returned (-1, heap)).
Proof.
  split; [done|].
  intros uri_r uri handlers heap i rgx a t built_in Hpath Hloc Ha. split.
  - unfold enabled. by rewrite Ha.
  - by rewrite (do_switch_http_handler_located _ _ _ _ _ _ _ _ _ Hpath Hloc Ha).
Qed.

Lemma located_snoc uri handlers p :
  check_exist_scan uri handlers = false →
  located uri (handlers ++ [(mkUriRegex uri, p)]) (length handlers)
    (mkUriRegex uri) p.
Proof.
  intros Habs. repeat split.
  - by rewrite lookup_app_r, Nat.sub_diag by lia.
  - intros j rgx' p' Hj Hl. rewrite lookup_app_l in Hl by done.
    apply list_elem_of_lookup_2 in Hl.
    by apply (proj1 (check_exist_scan_false uri handlers) Habs rgx' p').
Qed.

(** With registration as the spec describes it, the first switch-on of a
    pattern that was just registered finds the record enabled. *)
Lemma register_then_switch_on uri_r (t : T) built_in handlers heap handlers' heap' :
  register_http_handler uri_r t built_in handlers heap =
    Returned (RegisterOk, handlers', heap') →
  do_switch_http_handler uri_r true handlers' heap' = Returned (-1, heap').
Proof.
  unfold register_http_handler.
  destruct (pure_uri_path uri_r) as [uri|f] eqn:Hpath; [|done].
  cbn [mbind outcome_bind].
  destruct (check_exist_scan uri handlers) eqn:Habs; [done|].
  intros [= <- <-].
  rewrite (do_switch_http_handler_located uri_r uri true _ _ (length handlers)
             (mkUriRegex uri) (fresh (dom heap))
             (new_HttpHandlerObject t built_in) Hpath); [done| |].
  - by apply located_snoc.
  - apply lookup_insert_eq.
Qed.

(** With registration as the spec describes it, a pattern that is already
    in the table is refused and nothing changes. *)
Lemma register_duplicate uri_r uri (t : T) built_in handlers heap :
  pure_uri_path uri_r = Returned uri →
  check_exist_scan uri handlers = true →
  register_http_handler uri_r t built_in handlers heap =
    Returned (DuplicatePattern, handlers, heap).
Proof.
  intros Hpath Hex. unfold register_http_handler.
  rewrite Hpath. cbn [mbind outcome_bind]. by rewrite Hex.
Qed.

End Switch.

(** ** Finding a handler *)

Section Find.
Context {T : Type}.
Variable regex_match : cxx_string → UriRegex → bool.
Implicit Types (heap : gmap address (HttpHandlerObject T)).
Implicit Types (handlers later : handler_table) (uri uri_r : cxx_string).

Lemma find_scan_Some uri handlers heap p :
  find_scan regex_match uri handlers heap = Some p ↔
  ∃ i rgx, handlers !! i = Some (rgx, p) ∧
           candidate regex_match uri heap (rgx, p) = true ∧
           ∀ j e, (j < i)%nat → handlers !! j = Some e →
                  candidate regex_match uri heap e = false.
Proof.
  induction handlers as [|[rgx0 p0] handlers IH]; cbn [find_scan].
  - split; [done|]. by intros (i & rgx & Hi & _).
  - destruct (candidate regex_match uri heap (rgx0, p0)) eqn:E.
    + split.
      * intros [= ->]. exists 0%nat, rgx0. repeat split; [done|].
        intros j e Hj. lia.
      * intros ([|i] & rgx & Hi & Hc & Hfirst).
        -- simpl in Hi. by injection Hi as _ ->.
        -- rewrite (Hfirst 0%nat (rgx0, p0)) in E; [done|lia|done].
    + rewrite IH. split.
      * intros (i & rgx & Hi & Hc & Hfirst). exists (S i), rgx.
        repeat split; [done..|]. intros [|j] e Hj Hl; simpl in Hl.
        -- by injection Hl as <-.
        -- apply (Hfirst j); [lia|done].
      * intros ([|i] & rgx & Hi & Hc & Hfirst); simpl in Hi.
        -- injection Hi as -> ->. congruence.
        -- exists i, rgx. repeat split; [done..|].
           intros j e Hj Hl. apply (Hfirst (S j)); [lia|done].
Qed.

Lemma find_scan_None uri handlers heap :
  find_scan regex_match uri handlers heap = None ↔
  ∀ e, e ∈ handlers → candidate regex_match uri heap e = false.
Proof.
  induction handlers as [|[rgx0 p0] handlers IH]; cbn [find_scan].
  - split; [|done]. intros _ e He. by apply elem_of_nil in He.
  - destruct (candidate regex_match uri heap (rgx0, p0)) eqn:E.
    + split; [done|]. intros H. rewrite H in E; [done|left].
    + rewrite IH. split.
      * intros H e [->|He]%elem_of_cons; auto.
      * intros H e He. apply H. by right.
Qed.

Lemma find_scan_app uri handlers later heap p :
  find_scan regex_match uri handlers heap = Some p →
  find_scan regex_match uri (handlers ++ later) heap = Some p.
Proof.
  induction handlers as [|[rgx0 p0] handlers IH]; cbn [find_scan app]; [done|].
  destruct (candidate regex_match uri heap (rgx0, p0)); auto.
Qed.

(** C5. The lookup returns the pointer of the first entry, in the order of
    the table, whose record is enabled and whose matcher accepts the
    normalized URI, and NotFound when there is none; so of two entries that
    both qualify the later one is not reached, entries appended afterwards
    do not change a result, and the record returned is enabled. *)
Theorem find_http_handler_first_enabled_match uri_r uri handlers heap :
  pure_uri_path uri_r = Returned uri →
  (∀ p, find_http_handler regex_match uri_r handlers heap = Returned (Some p) ↔
        ∃ i rgx, handlers !! i = Some (rgx, p) ∧
                 enabled heap p = true ∧ regex_match uri rgx = true ∧
                 ∀ j rgx' p', (j < i)%nat → handlers !! j = Some (rgx', p') →
                              enabled heap p' && regex_match uri rgx' = false) ∧
  (find_http_handler regex_match uri_r handlers heap = Returned None ↔
     ∀ rgx p, (rgx, p) ∈ handlers →
              enabled heap p && regex_match uri rgx = false) ∧
  (∀ i j rgx1 p1 rgx2 p2,
     (i < j)%nat →
     handlers !! i = Some (rgx1, p1) → handlers !! j = Some (rgx2, p2) →
     enabled heap p1 = true → regex_match uri rgx1 = true →
     enabled heap p2 = true → regex_match uri rgx2 = true →
     ∃ k rgx p, (k ≤ i)%nat ∧ handlers !! k = Some (rgx, p) ∧
       find_http_handler regex_match uri_r handlers heap = Returned (Some p)) ∧
  (∀ p later,
     find_http_handler regex_match uri_r handlers heap = Returned (Some p) →
     find_http_handler regex_match uri_r (handlers ++ later) heap =
       Returned (Some p)) ∧
  (∀ p, find_http_handler regex_match uri_r handlers heap = Returned (Some p) →
        enabled heap p = true).
Proof.
  intros Hpath. unfold find_http_handler. rewrite Hpath.
  cbn [mbind outcome_bind mret outcome_ret].
  assert (Hchar : ∀ p, find_scan regex_match uri handlers heap = Some p ↔
        ∃ i rgx, handlers !! i = Some (rgx, p) ∧
                 enabled heap p = true ∧ regex_match uri rgx = true ∧
                 ∀ j rgx' p', (j < i)%nat → handlers !! j = Some (rgx', p') →
                              enabled heap p' && regex_match uri rgx' = false).
  { intros p. rewrite find_scan_Some. unfold candidate. split.
    - intros (i & rgx & Hi & [He Hm]%andb_prop & Hfirst).
      exists i, rgx. repeat split; [done..|].
      intros j rgx' p' Hj Hl. by apply (Hfirst j (rgx', p')).
    - intros (i & rgx & Hi & He & Hm & Hfirst). exists i, rgx.
      repeat split; [done|simpl; by rewrite He, Hm|].
      intros j [rgx' p'] Hj Hl. by apply (Hfirst j). }
  repeat split.
  - intros [= H]. by apply Hchar.
  - intros H. f_equal. by apply Hchar.
  - intros [= H] rgx p Hin.
    by apply (proj1 (find_scan_None uri handlers heap) H (rgx, p)).
  - intros H. f_equal. apply find_scan_None. intros [rgx p] Hin.
    by apply H.
  - intros i j rgx1 p1 rgx2 p2 Hij Hi Hj He1 Hm1 He2 Hm2.
    destruct (find_scan regex_match uri handlers heap) as [p|] eqn:Hf.
    + pose proof (proj1 (Hchar p) eq_refl) as (k & rgx & Hk & _ & _ & Hfirst).
      exists k, rgx, p. repeat split; [|done].
      destruct (decide (k ≤ i)%nat) as [|Hgt]; [done|].
      specialize (Hfirst i rgx1 p1). rewrite He1, Hm1 in Hfirst.
      discriminate Hfirst; [lia|done].
    + pose proof (proj1 (find_scan_None uri handlers heap) Hf (rgx1, p1)) as Hc.
      unfold candidate in Hc. simpl in Hc. rewrite He1, Hm1 in Hc.
      discriminate Hc. by eapply list_elem_of_lookup_2.
  - intros p later [= H]. f_equal. by apply find_scan_app.
  - intros p [= H]. by apply Hchar in H as (i & rgx & _ & He & _).
Qed.

End Find.

(** ** Normal forms of pure_uri_path *)

Lemma trim_copy_last (s : cxx_string) c :
  last (trim_copy s) = Some c → isspace c = false.
Proof.
  unfold trim_copy. intros H.
  assert (last (trim_end s) = Some c) as Hl.
  { destruct (trim_begin_suffix (trim_end s)) as [k Hk].
    rewrite Hk, last_app. by rewrite H. }
  unfold trim_end in Hl. rewrite last_reverse in Hl.
  by apply trim_begin_head in Hl.
Qed.

Lemma pure_uri_path_normal_form (x y : cxx_string) :
  representable x → pure_uri_path x = Returned y →
  y ≠ [] ∧ representable y ∧ to_lower_copy y = y ∧
  (∀ c, head y = Some c → isspace c = false) ∧
  (length y = 1%nat ∨ last y ≠ Some slash).
Proof.
  intros Hr Hy.
  destruct (pure_uri_path_cases x Hr) as [[_ E]|(y' & E & Hne & Hp & Hl)];
    rewrite E in Hy; [done|]. injection Hy as ->.
  assert (length (trim_copy (to_lower_copy x)) ≤ length x)%nat as Hlen.
  { etrans; [apply trim_copy_length|]. unfold to_lower_copy. by rewrite length_fmap. }
  pose proof (trim_copy_sublist _ _ (to_lower_copy_lowered x)) as Hlow.
  repeat split; [done| | | |done].
  - eapply representable_le; [|exact Hr].
    apply prefix_length in Hp. lia.
  - apply to_lower_copy_fixed. destruct Hp as [k Hk].
    rewrite Hk in Hlow. by apply Forall_app in Hlow as [? _].
  - intros c Hc. apply (trim_copy_head (to_lower_copy x)).
    destruct Hp as [k ->]. destruct y as [|d y]; [done|].
    simpl in *. done.
Qed.

Lemma pure_uri_path_fixed (y : cxx_string) :
  representable y → y ≠ [] → to_lower_copy y = y →
  (∀ c, head y = Some c → isspace c = false) →
  (∀ c, last y = Some c → isspace c = false) →
  (length y = 1%nat ∨ last y ≠ Some slash) →
  pure_uri_path y = Returned y.
Proof.
  intros Hr Hne Hlow Hh Hl Hs. unfold pure_uri_path.
  rewrite Hlow, (trim_copy_id y Hh Hl). by apply pure_uri_loop_fixed.
Qed.

Lemma pure_uri_path_fixed_last (y : cxx_string) :
  representable y → pure_uri_path y = Returned y →
  ∀ c, last y = Some c → isspace c = false.
Proof.
  intros Hr Hy c Hc.
  destruct (pure_uri_path_cases y Hr) as [[_ E]|(y' & E & Hne & Hp & Hl)];
    rewrite E in Hy; [done|]. injection Hy as ->.
  assert (y = trim_copy (to_lower_copy y)) as Heq.
  { apply prefix_length_eq; [done|].
    etrans; [apply trim_copy_length|]. unfold to_lower_copy. by rewrite length_fmap. }
  rewrite Heq in Hc. by apply trim_copy_last in Hc.
Qed.

(** C4 (amended). Whenever [pure_uri_path] returns, the result is not empty,
    and normalizing the result again gives it back exactly when it does not
    end in a whitespace char; "/Foo/" and "/foo" both give "/foo" and "/"
    gives "/". *)
Theorem pure_uri_path_idempotent_unless_space :
  (∀ x y : cxx_string,
     representable x → pure_uri_path x = Returned y →
     y ≠ [] ∧
     (pure_uri_path y = Returned y ↔ ∀ c, last y = Some c → isspace c = false)) ∧
  pure_uri_path (lit "/Foo/") = Returned (lit "/foo") ∧
  pure_uri_path (lit "/foo") = Returned (lit "/foo") ∧
  pure_uri_path (lit "/") = Returned (lit "/").
Proof.
  split; [|by vm_compute].
  intros x y Hr Hy.
  destruct (pure_uri_path_normal_form x y Hr Hy) as (Hne & Hry & Hlow & Hh & Hs).
  split; [done|]. split.
  - by apply pure_uri_path_fixed_last.
  - intros Hl. by apply pure_uri_path_fixed.
Qed.

(** C10 (the code departs from the claim). On an input of whitespace chars
    only, the empty string among them, the string left by trimming is empty,
    [uri.size()-1] is the largest [size_t], and the loop condition indexes
    the string there, past its end. *)
Theorem pure_uri_path_blank_out_of_bounds (x : cxx_string) :
  Forall (λ c, isspace c = true) x →
  trim_copy (to_lower_copy x) = [] ∧
  size_t_sub (size (trim_copy (to_lower_copy x))) 1 = SIZE_T_MODULUS - 1 ∧
  at_index (trim_copy (to_lower_copy x))
           (size_t_sub (size (trim_copy (to_lower_copy x))) 1)
    = Undefined OutOfBounds ∧
  pure_uri_path x = Undefined OutOfBounds.
Proof.
  intros Hx.
  assert (trim_copy (to_lower_copy x) = []) as E.
  { apply trim_copy_spaces. unfold to_lower_copy. apply Forall_fmap.
    eapply Forall_impl; [exact Hx|]. intros c Hc. simpl. by rewrite isspace_tolower. }
  unfold pure_uri_path. rewrite E. by vm_compute.
Qed.

(** Every other input a [std::string] can hold is indexed within its
    bounds and normalized. *)
Lemma pure_uri_path_in_bounds (x : cxx_string) :
  representable x → trim_copy (to_lower_copy x) ≠ [] →
  ∃ y, pure_uri_path x = Returned y.
Proof.
  intros Hr Hne. destruct (pure_uri_path_cases x Hr) as [[E _]|(y & E & _)]; eauto.
  done.
Qed.

(** ** The lock *)

Lemma enter_after_exclusive (m1 : Method) (op1 : Operation) (m2 : Method)
    (op2 : Operation) (h h1 : HttpHandler) :
  lock_mode_of op1 = LockGuard → enter m1 op1 h = Acquired h1 →
  ∃ h2, enter m2 op2 h1 = Waiting h2.
Proof.
  intros Hm He. unfold enter, lock_of in *. rewrite Hm in He.
  unfold shared_mutex_lock in He.
  destruct (can_lock _); [|done]. injection He as <-.
  destruct (lock_mode_of op2);
    unfold shared_mutex_lock, shared_mutex_lock_shared, can_lock,
      can_lock_shared; cbn; rewrite ?andb_false_r; by eexists.
Qed.

Lemma enter_after_shared (m1 : Method) (op1 : Operation) (m2 : Method)
    (op2 : Operation) (h h1 : HttpHandler) :
  lock_mode_of op1 = SharedLock → lock_mode_of op2 = LockGuard →
  enter m1 op1 h = Acquired h1 →
  ∃ h2, enter m2 op2 h1 = Waiting h2.
Proof.
  intros Hm1 Hm2 He. unfold enter, lock_of in *. rewrite Hm1 in He.
  rewrite Hm2. unfold shared_mutex_lock_shared in He.
  destruct (can_lock_shared _); [|done]. injection He as <-.
  unfold shared_mutex_lock, can_lock. cbn. by eexists.
Qed.

(** C8 (amended). The two tables share the one lock [rwlock_]: an
    operation (existence check, find, register, switch, update) asks for
    the same lock whichever table it works on; while an operation that
    holds it exclusively (register, switch, update) is in its body, every
    operation on either table waits; while an operation that holds it
    shared (existence check, find) is in its body, every exclusive
    operation on either table waits. *)
Theorem one_rwlock_for_both_tables :
  (∀ op h, enter GET op h = enter POST op h) ∧
  (∀ m1 op1 m2 op2 h h1,
     lock_mode_of op1 = LockGuard →
     enter m1 op1 h = Acquired h1 →
     ∃ h2, enter m2 op2 h1 = Waiting h2) ∧
  (∀ m1 op1 m2 op2 h h1,
     lock_mode_of op1 = SharedLock →
     lock_mode_of op2 = LockGuard →
     enter m1 op1 h = Acquired h1 →
     ∃ h2, enter m2 op2 h1 = Waiting h2).
Proof.
  split; [done|]. split.
  - intros m1 op1 m2 op2 h h1. apply enter_after_exclusive.
  - intros m1 op1 m2 op2 h h1. apply enter_after_shared.
Qed.

(** ** The operations on the small table *)

Ltac solve_located :=
  split; [reflexivity|]; split; [reflexivity|];
  let j := fresh "j" in let Hj := fresh "Hj" in let Hl := fresh "Hl" in
  intros j ? ? Hj Hl;
  repeat (destruct j as [|j];
          [injection Hl as <- <-; vm_compute; discriminate|]);
  lia.

Lemma demo_located_a :
  located (lit "/a") demo_handlers 0 (mkUriRegex (lit "/a")) (Some 1%positive).
Proof. solve_located. Defined.

Lemma demo_located_b :
  located (lit "/b") demo_handlers 1 (mkUriRegex (lit "/b")) (Some 2%positive).
Proof. solve_located. Defined.

Lemma demo_located_root :
  located (lit "/") demo_handlers 2 (mkUriRegex (lit "/")) (Some 3%positive).
Proof. solve_located. Defined.

Lemma do_update_http_handler_drained_witness :
  pure_uri_path (lit "/B/") = Returned (lit "/b") ∧
  do_update_http_handler (λ _, 2) (lit "/B/") true demo_handlers demo_heap =
    Returned (-2,
              [ (mkUriRegex (lit "/b"), Some 2%positive);
                (mkUriRegex (lit "/"), Some 3%positive) ],
              mkDrainLog 2 0).
Proof.
  split; [vm_compute; reflexivity|].
  apply (do_update_http_handler_drained (λ _, 2) (lit "/B/") (lit "/b") true
           demo_handlers demo_heap 1 (mkUriRegex (lit "/b")) 2%positive
           (set_working false (new_HttpHandlerObject "B"%string false))).
  - vm_compute; reflexivity.
  - exact demo_located_b.
  - vm_compute; reflexivity.
  - reflexivity.
  - intros k. lia.
Defined.

Lemma do_update_http_handler_not_found_witness :
  do_update_http_handler (λ _, 2) (lit "/zzz") true demo_handlers demo_heap =
    Undefined NullDereference ∧
  do_update_http_handler (λ _, 2) (lit "/zzz") true []
    (∅ : gmap address (HttpHandlerObject string)) = Undefined NullDereference.
Proof.
  split.
  - apply (do_update_http_handler_not_found (λ _, 2) (lit "/zzz") (lit "/zzz")).
    + vm_compute; reflexivity.
    + intros rgx p Hin. unfold demo_handlers in Hin.
      repeat (apply elem_of_cons in Hin as [[= -> ->]|Hin];
              [vm_compute; discriminate|]).
      by apply elem_of_nil in Hin.
  - apply (do_update_http_handler_not_found (λ _, 2) (lit "/zzz") (lit "/zzz")).
    + vm_compute; reflexivity.
    + intros rgx p Hin. by apply elem_of_nil in Hin.
Defined.

Lemma do_update_http_handler_busy_witness :
  do_update_http_handler (λ _, 3) (lit "/b") true demo_handlers demo_heap =
    Returned (-2, demo_handlers, mkDrainLog 11 9).
Proof.
  destruct (do_update_http_handler_busy (λ _, 3) (lit "/b") (lit "/b") true
              demo_handlers demo_heap 1 (mkUriRegex (lit "/b")) 2%positive
              (set_working false (new_HttpHandlerObject "B"%string false)))
    as (handlers' & Hret & -> & _).
  - vm_compute; reflexivity.
  - exact demo_located_b.
  - vm_compute; reflexivity.
  - reflexivity.
  - intros k _. lia.
  - exact Hret.
Defined.

Lemma do_update_http_handler_built_in_witness :
  do_update_http_handler (λ _, 7) (lit " / ") true demo_handlers demo_heap =
    Returned (-1, demo_handlers, mkDrainLog 0 0).
Proof.
  destruct (do_update_http_handler_built_in (λ _, 7) (lit " / ") (lit "/") true
              demo_handlers demo_heap 2 (mkUriRegex (lit "/")) 3%positive
              (new_HttpHandlerObject "default"%string true))
    as (handlers' & [reads sleeps] & Hret & Hr & Hs & -> & _).
  - vm_compute; reflexivity.
  - exact demo_located_root.
  - vm_compute; reflexivity.
  - reflexivity.
  - simpl in Hr, Hs. subst reads sleeps. exact Hret.
Defined.

Lemma do_switch_http_handler_on_twice_witness :
  ∃ heap',
    do_switch_http_handler (lit "/B") true demo_handlers demo_heap =
      Returned (0, heap') ∧
    (working_ <$> heap' !! 2%positive) = Some true ∧
    do_switch_http_handler (lit "/B") true demo_handlers heap' =
      Returned (-1, heap').
Proof.
  destruct (do_switch_http_handler_on_twice (lit "/B") (lit "/b")
              demo_handlers demo_heap 1 (mkUriRegex (lit "/b")) 2%positive
              (set_working false (new_HttpHandlerObject "B"%string false)))
    as (heap' & obj' & H1 & Ha & Hw & _ & _ & _ & _ & _ & H2).
  - vm_compute; reflexivity.
  - exact demo_located_b.
  - vm_compute; reflexivity.
  - reflexivity.
  - exists heap'. split; [exact H1|]. split; [|exact H2].
    rewrite Ha. simpl. by rewrite Hw.
Defined.

Lemma new_HttpHandlerObject_working_witness :
  working_ (new_HttpHandlerObject "A"%string false) = true ∧
  do_switch_http_handler (lit "/a/") true demo_handlers demo_heap =
    Returned (-1, demo_heap).
Proof.
  split.
  - exact (proj1 (proj1 new_HttpHandlerObject_working "A"%string false)).
  - apply (proj2 new_HttpHandlerObject_working (lit "/a/") (lit "/a")
             demo_handlers demo_heap 0%nat (mkUriRegex (lit "/a")) 1%positive
             "A"%string false).
    + vm_compute; reflexivity.
    + exact demo_located_a.
    + vm_compute; reflexivity.
Defined.

Lemma find_http_handler_first_enabled_match_witness :
  find_http_handler prefix_match (lit "/A/") demo_handlers demo_heap =
    Returned (Some (Some 1%positive)) ∧
  find_http_handler prefix_match (lit "/A/")
    (demo_handlers ++ [(mkUriRegex (lit "/a"), Some 3%positive)]) demo_heap =
    Returned (Some (Some 1%positive)) ∧
  enabled demo_heap (Some 1%positive) = true.
Proof.
  pose proof (find_http_handler_first_enabled_match (T:=string) prefix_match
                (lit "/A/") (lit "/a") demo_handlers demo_heap
                ltac:(vm_compute; reflexivity))
    as (_ & _ & _ & Hlater & Hen).
  assert (find_http_handler prefix_match (lit "/A/") demo_handlers demo_heap =
            Returned (Some (Some 1%positive))) as Hf
    by (vm_compute; reflexivity).
  split; [exact Hf|]. split.
  - exact (Hlater _ _ Hf).
  - exact (Hen _ Hf).
Defined.

(** ** Normalization on concrete inputs *)

Lemma representable_lit_foo : representable (lit "/Foo/").
Proof. unfold representable, SIZE_T_MODULUS. simpl. lia. Defined.

Lemma pure_uri_path_idempotent_unless_space_witness :
  representable (lit "/Foo/") ∧
  pure_uri_path (lit "/Foo/") = Returned (lit "/foo") ∧
  lit "/foo" ≠ [] ∧
  pure_uri_path (lit "/foo") = Returned (lit "/foo").
Proof.
  split; [exact representable_lit_foo|].
  split; [vm_compute; reflexivity|].
  destruct (proj1 pure_uri_path_idempotent_unless_space
              (lit "/Foo/") (lit "/foo") representable_lit_foo
              ltac:(vm_compute; reflexivity)) as [Hne Hiff].
  split; [exact Hne|]. apply Hiff.
  intros c [= <-]. vm_compute; reflexivity.
Defined.

(** C4 as it is stated does not hold: "/a /" is normalized to "/a " (the
    slash goes, the space before it stays), and "/a " is normalized to
    "/a". *)
Lemma pure_uri_path_not_idempotent :
  pure_uri_path (lit "/a /") = Returned (lit "/a ") ∧
  pure_uri_path (lit "/a ") = Returned (lit "/a") ∧
  (pure_uri_path (lit "/a /") ≫= pure_uri_path) ≠ pure_uri_path (lit "/a /").
Proof.
  split; [vm_compute; reflexivity|]. split; [vm_compute; reflexivity|].
  vm_compute. discriminate.
Qed.

Lemma pure_uri_path_blank_out_of_bounds_witness :
  pure_uri_path (lit "") = Undefined OutOfBounds ∧
  size_t_sub (size (trim_copy (to_lower_copy (lit "")))) 1 =
    18446744073709551615 ∧
  pure_uri_path (lit "  ") = Undefined OutOfBounds.
Proof.
  destruct (pure_uri_path_blank_out_of_bounds (lit "")
              ltac:(constructor)) as (_ & Hidx & _ & Hemp).
  destruct (pure_uri_path_blank_out_of_bounds (lit "  ")
              ltac:(repeat constructor)) as (_ & _ & _ & Hblank).
  split; [exact Hemp|]. split; [exact Hidx|exact Hblank].
Defined.

(** ** The lock on concrete states *)

(** C8 as it is stated does not hold: with nothing else going on, a switch
    on the GET table that is in its body makes a switch, an update and a
    check for existence on the POST table wait, and the other way round. *)
Lemma get_operation_blocks_post_operation :
  blocks GET Switch POST Switch idle ∧
  blocks GET Switch POST Update idle ∧
  blocks GET Update POST CheckExist idle ∧
  blocks POST Switch GET CheckExist idle.
Proof.
  unfold blocks. repeat split; by repeat eexists.
Qed.

Lemma one_rwlock_for_both_tables_witness :
  enter GET Switch idle =
    Acquired (with_rwlock (mkSharedMutex 0 true true) idle) ∧
  (∃ h2, enter POST CheckExist
           (with_rwlock (mkSharedMutex 0 true true) idle) = Waiting h2) ∧
  (∃ h2, enter POST Register
           (with_rwlock (mkSharedMutex 0 true true) idle) = Waiting h2) ∧
  enter GET Find idle =
    Acquired (with_rwlock (mkSharedMutex 1 false false) idle) ∧
  (∃ h2, enter POST Update
           (with_rwlock (mkSharedMutex 1 false false) idle) = Waiting h2).
Proof.
  destruct one_rwlock_for_both_tables as (_ & Hexcl & Hshared).
  assert (enter GET Switch idle =
            Acquired (with_rwlock (mkSharedMutex 0 true true) idle))
    as Hin by reflexivity.
  assert (enter GET Find idle =
            Acquired (with_rwlock (mkSharedMutex 1 false false) idle))
    as Hfind by reflexivity.
  split; [exact Hin|].
  split; [exact (Hexcl GET Switch POST CheckExist _ _ eq_refl Hin)|].
  split; [exact (Hexcl GET Switch POST Register _ _ eq_refl Hin)|].
  split; [exact Hfind|].
  exact (Hshared GET Find POST Update _ _ eq_refl eq_refl Hfind).
Defined.

(** ** More on pure_uri_path *)

Lemma pure_uri_loop_strips (t : cxx_string) :
  ∀ fuel, representable t → t ≠ [] → (length t < fuel)%nat →
  ∃ y k, pure_uri_loop fuel t = Returned y ∧ t = y ++ replicate k slash ∧
         y ≠ [] ∧ (length y = 1%nat ∨ last y ≠ Some slash).
Proof.
  induction t as [|c s IH] using rev_ind; [done|].
  intros fuel Hr _ Hf. rewrite length_app in Hf. simpl in Hf.
  destruct fuel as [|fuel]; [lia|].
  rewrite pure_uri_loop_snoc by done.
  destruct (bool_decide (c = slash) && bool_decide (s ≠ [])) eqn:E.
  - apply andb_prop in E as [->%bool_decide_eq_true Hs%bool_decide_eq_true].
    destruct (IH fuel) as (y & k & Hy & Hk & Hne & Hl); [|done|lia|].
    { eapply representable_le; [|exact Hr]. rewrite length_app. lia. }
    exists y, (S k). repeat split; [done| |done|done].
    rewrite replicate_S_end, app_assoc. by rewrite <-Hk.
  - exists (s ++ [c]), 0%nat. simpl. rewrite app_nil_r.
    repeat split; [by destruct s|].
    apply andb_false_iff in E as [E%bool_decide_eq_false|E%bool_decide_eq_false].
    + right. rewrite last_snoc. congruence.
    + left. destruct s; [done|]. by destruct E.
Qed.

Lemma to_lower_copy_length (x : cxx_string) :
  length (to_lower_copy x) = length x.
Proof. unfold to_lower_copy. apply length_fmap. Qed.

Lemma to_lower_copy_idem (x : cxx_string) :
  to_lower_copy (to_lower_copy x) = to_lower_copy x.
Proof. apply to_lower_copy_fixed, to_lower_copy_lowered. Qed.

Lemma trim_begin_to_lower (s : cxx_string) :
  trim_begin (to_lower_copy s) = to_lower_copy (trim_begin s).
Proof.
  unfold to_lower_copy. induction s as [|c s IH]; csimpl; [done|].
  rewrite isspace_tolower. by destruct (isspace c).
Qed.

Lemma trim_end_to_lower (s : cxx_string) :
  trim_end (to_lower_copy s) = to_lower_copy (trim_end s).
Proof.
  unfold trim_end. unfold to_lower_copy at 1. rewrite <-fmap_reverse.
  fold (to_lower_copy (reverse s)). rewrite trim_begin_to_lower.
  unfold to_lower_copy. by rewrite fmap_reverse.
Qed.

Lemma trim_copy_to_lower (s : cxx_string) :
  trim_copy (to_lower_copy s) = to_lower_copy (trim_copy s).
Proof. unfold trim_copy. by rewrite trim_end_to_lower, trim_begin_to_lower. Qed.

Lemma trim_copy_idem (s : cxx_string) : trim_copy (trim_copy s) = trim_copy s.
Proof. apply trim_copy_id; [apply trim_copy_head|apply trim_copy_last]. Qed.

Lemma trim_begin_app_nonblank (s k : cxx_string) :
  trim_begin s ≠ [] → trim_begin (s ++ k) = trim_begin s ++ k.
Proof.
  induction s as [|c s IH]; simpl; [done|].
  destruct (isspace c); auto.
Qed.

Lemma trim_begin_snoc_nonspace (s : cxx_string) c :
  isspace c = false → trim_begin (s ++ [c]) ≠ [].
Proof.
  intros Hc. induction s as [|d s IH]; simpl.
  - by rewrite Hc.
  - by destruct (isspace d).
Qed.

(** X1. What a returned result looks like: the trimmed, lowered input is
    the result followed by slashes only; the result is not empty, has no
    upper-case letter, does not begin with whitespace, does not end in a
    slash unless it is one char long, and is no longer than the input. *)
Theorem pure_uri_path_result (x y : cxx_string) :
  representable x → pure_uri_path x = Returned y →
  (∃ k, trim_copy (to_lower_copy x) = y ++ replicate k slash) ∧
  y ≠ [] ∧
  to_lower_copy y = y ∧
  (∀ c, head y = Some c → isspace c = false) ∧
  (length y = 1%nat ∨ last y ≠ Some slash) ∧
  (length y ≤ length x)%nat.
Proof.
  intros Hr Hy. unfold pure_uri_path in Hy.
  assert (length (trim_copy (to_lower_copy x)) ≤ length x)%nat as Hlen.
  { etrans; [apply trim_copy_length|]. by rewrite to_lower_copy_length. }
  destruct (trim_copy (to_lower_copy x)) as [|c t] eqn:Et; [done|].
  destruct (pure_uri_loop_strips (c :: t) (S (length (c :: t))))
    as (y' & k & Hy' & Hk & Hne & Hl); [|done|lia|].
  { eapply representable_le; [exact Hlen|exact Hr]. }
  rewrite Hy' in Hy. injection Hy as ->.
  pose proof (trim_copy_sublist _ _ (to_lower_copy_lowered x)) as Hlow.
  rewrite Et, Hk in Hlow. apply Forall_app in Hlow as [Hlow _].
  split; [by exists k|]. split; [done|].
  split; [by apply to_lower_copy_fixed|]. split; [|split; [done|]].
  - intros d Hd. apply (trim_copy_head (to_lower_copy x)).
    rewrite Et, Hk. destruct y as [|e y]; [done|]. exact Hd.
  - rewrite Hk, length_app in Hlen. lia.
Qed.

(** X2. The strings that [pure_uri_path] leaves as they are: not empty, no
    upper-case letter, no whitespace at either end, no slash at the end
    unless the string is one char long. *)
Theorem pure_uri_path_fixed_point_iff (y : cxx_string) :
  representable y →
  (pure_uri_path y = Returned y ↔
   y ≠ [] ∧ to_lower_copy y = y ∧
   (∀ c, head y = Some c → isspace c = false) ∧
   (∀ c, last y = Some c → isspace c = false) ∧
   (length y = 1%nat ∨ last y ≠ Some slash)).
Proof.
  intros Hr. split.
  - intros Hy.
    destruct (pure_uri_path_normal_form y y Hr Hy) as (Hne & _ & Hlow & Hh & Hs).
    repeat split; [done..| |done]. by apply pure_uri_path_fixed_last.
  - intros (Hne & Hlow & Hh & Hl & Hs). by apply pure_uri_path_fixed.
Qed.

(** X3. Letter case and whitespace around the input make no difference:
    lowering or trimming the input beforehand gives the same outcome. *)
Theorem pure_uri_path_case_space_insensitive (x : cxx_string) :
  pure_uri_path (to_lower_copy x) = pure_uri_path x ∧
  pure_uri_path (trim_copy x) = pure_uri_path x.
Proof.
  unfold pure_uri_path. split.
  - by rewrite to_lower_copy_idem.
  - by rewrite <-trim_copy_to_lower, trim_copy_idem.
Qed.

(** X4. One more slash at the end of an input that does not end in
    whitespace makes no difference. *)
Theorem pure_uri_path_trailing_slash (x : cxx_string) (c : ascii) :
  representable (x ++ [slash]) →
  last x = Some c → isspace c = false →
  pure_uri_path (x ++ [slash]) = pure_uri_path x.
Proof.
  intros Hr Hc Hsp.
  assert (last (to_lower_copy x) = Some (tolower c)) as Hlast.
  { unfold to_lower_copy. by rewrite fmap_last, Hc. }
  assert (trim_begin (to_lower_copy x) ≠ []) as Hne.
  { apply last_Some in Hlast as [l' ->]. apply trim_begin_snoc_nonspace.
    by rewrite isspace_tolower. }
  assert (trim_copy (to_lower_copy x) = trim_begin (to_lower_copy x)) as E1.
  { unfold trim_copy. rewrite trim_end_id; [done|].
    intros d. rewrite Hlast. intros [= <-]. by rewrite isspace_tolower. }
  assert (trim_copy (to_lower_copy (x ++ [slash])) =
            trim_begin (to_lower_copy x) ++ [slash]) as E2.
  { unfold to_lower_copy at 1. rewrite fmap_snoc.
    change (tolower slash) with slash. fold (to_lower_copy x).
    unfold trim_copy. rewrite trim_end_id.
    - by apply trim_begin_app_nonblank.
    - intros d. rewrite last_snoc. by intros [= <-]. }
  unfold pure_uri_path. rewrite E1, E2, pure_uri_loop_snoc.
  - rewrite !bool_decide_eq_true_2 by done. simpl.
    by rewrite length_app, Nat.add_1_r.
  - eapply representable_le; [|exact Hr].
    rewrite !length_app. simpl.
    pose proof (suffix_length _ _ (trim_begin_suffix (to_lower_copy x))).
    rewrite to_lower_copy_length in *. lia.
Qed.

Lemma pure_uri_loop_slashes (n : nat) :
  ∀ fuel, (n < fuel)%nat → representable (replicate (S n) slash) →
  pure_uri_loop fuel (replicate (S n) slash) = Returned [slash].
Proof.
  induction n as [|n IH]; intros [|fuel] Hf Hr; try lia.
  - change (replicate 1 slash) with ([] ++ [slash]).
    by rewrite pure_uri_loop_snoc.
  - rewrite replicate_S_end in Hr |- *. rewrite pure_uri_loop_snoc by done.
    rewrite !bool_decide_eq_true_2 by done. simpl. apply IH; [lia|].
    eapply representable_le; [|exact Hr]. rewrite length_app. lia.
Qed.

(** X5. A path of slashes only, however many, is the root path "/". *)
Theorem pure_uri_path_slashes (n : nat) :
  representable (replicate (S n) slash) →
  pure_uri_path (replicate (S n) slash) = Returned [slash].
Proof.
  intros Hr. unfold pure_uri_path.
  assert (to_lower_copy (replicate (S n) slash) = replicate (S n) slash) as E1.
  { unfold to_lower_copy. by rewrite fmap_replicate. }
  assert (trim_copy (replicate (S n) slash) = replicate (S n) slash) as E2.
  { apply trim_copy_id.
    - simpl. by intros c [= <-].
    - rewrite replicate_S_end, last_snoc. by intros c [= <-]. }
  rewrite E1, E2. apply pure_uri_loop_slashes; [|done].
  rewrite length_replicate. lia.
Qed.

(** ** More on the three templates *)

Section MoreOperations.
Context {T : Type}.
Implicit Types (heap : gmap address (HttpHandlerObject T)).
Implicit Types (handlers : handler_table) (uri uri_r : cxx_string).
Implicit Types (use_count : nat → Z).

Lemma pure_uri_path_blank (x : cxx_string) :
  Forall (λ c, isspace c = true) x → pure_uri_path x = Undefined OutOfBounds.
Proof.
  intros Hx. unfold pure_uri_path. rewrite trim_copy_to_lower.
  by rewrite (trim_copy_spaces x Hx).
Qed.

(** X6. The existence check answers true exactly when some entry of the
    table has the normalized pattern as its text. *)
Theorem do_check_exist_http_handler_iff uri_r uri handlers :
  pure_uri_path uri_r = Returned uri →
  ∃ b, do_check_exist_http_handler uri_r handlers = Returned b ∧
       (b = true ↔ ∃ rgx p, (rgx, p) ∈ handlers ∧ str rgx = uri).
Proof.
  intros Hpath. exists (check_exist_scan uri handlers). split.
  { unfold do_check_exist_http_handler. by rewrite Hpath. }
  destruct (check_exist_scan uri handlers) eqn:E.
  - split; [intros _|done].
    apply check_exist_scan_true in E as (i & rgx & p & Hi & Hs & _).
    exists rgx, p. split; [|done]. by eapply list_elem_of_lookup_2.
  - split; [done|]. intros (rgx & p & Hin & Hs).
    by destruct (proj1 (check_exist_scan_false uri handlers) E rgx p Hin).
Qed.

Lemma switch_scan_located_deref uri on handlers heap i rgx p :
  located uri handlers i rgx p →
  switch_scan uri on handlers heap =
    '(a, obj) ← deref heap p;
    if bool_decide (working_ obj = on) then Returned (-1, heap)
    else Returned (0, <[a := set_working on obj]> heap).
Proof.
  revert i. induction handlers as [|[rgx0 p0] handlers IH]; intros i Hloc.
  - by destruct Hloc as [Hi _].
  - cbn [switch_scan]. destruct (decide (str rgx0 = uri)) as [E|E].
    + rewrite (bool_decide_eq_true_2 _ E).
      by destruct (located_cons_eq _ _ _ _ _ _ _ E Hloc) as (_ & _ & ->).
    + rewrite (bool_decide_eq_false_2 _ E).
      destruct (located_cons_ne _ _ _ _ _ _ _ E Hloc) as (i' & _ & Hloc'). eauto.
Qed.

Lemma switch_scan_cases uri on handlers heap c heap' :
  switch_scan uri on handlers heap = Returned (c, heap') →
  (c = -2 ∧ heap' = heap ∧ check_exist_scan uri handlers = false) ∨
  (∃ i rgx a obj, located uri handlers i rgx (Some a) ∧ heap !! a = Some obj ∧
     ((c = -1 ∧ heap' = heap ∧ working_ obj = on) ∨
      (c = 0 ∧ heap' = <[a := set_working on obj]> heap ∧ working_ obj ≠ on))).
Proof.
  intros Hs.
  destruct (check_exist_scan uri handlers) eqn:E.
  - right. apply check_exist_scan_true in E as (i & rgx & p & Hloc).
    rewrite (switch_scan_located_deref _ on _ heap _ _ _ Hloc) in Hs.
    destruct p as [a|]; [|done]. cbn [deref] in Hs.
    destruct (heap !! a) as [obj|] eqn:Ha; [|done].
    cbn [mbind outcome_bind] in Hs.
    exists i, rgx, a, obj. split; [done|]. split; [done|].
    case_bool_decide as Hw; injection Hs as <- <-; [left|right]; done.
  - left. rewrite (switch_scan_absent _ on _ heap E) in Hs.
    by injection Hs as <- <-.
Qed.

(** X7. The switch answers -2 exactly when the existence check answers
    false, and then no record is written. *)
Theorem do_switch_http_handler_not_found_iff uri_r uri on handlers heap :
  pure_uri_path uri_r = Returned uri →
  (do_switch_http_handler uri_r on handlers heap = Returned (-2, heap) ↔
   do_check_exist_http_handler uri_r handlers = Returned false) ∧
  (∀ heap', do_switch_http_handler uri_r on handlers heap = Returned (-2, heap') →
            heap' = heap).
Proof.
  intros Hpath. unfold do_switch_http_handler, do_check_exist_http_handler.
  rewrite Hpath. cbn [mbind outcome_bind mret outcome_ret]. split; [split|].
  - intros Hs. f_equal.
    apply switch_scan_cases in Hs as [(_ & _ & E)|(i & rgx & a & obj & _ & _ & H)];
      [done|]. destruct H as [(? & _)|(? & _)]; lia.
  - intros [= E]. by apply switch_scan_absent.
  - intros heap' Hs.
    apply switch_scan_cases in Hs as [(_ & E & _)|(i & rgx & a & obj & _ & _ & H)];
      [done|]. destruct H as [(? & _)|(? & _)]; lia.
Qed.

(** X8. Switching a record to the other state and back restores the store
    exactly; both calls answer 0. *)
Theorem do_switch_http_handler_round_trip uri_r uri on handlers heap
    i rgx a obj :
  pure_uri_path uri_r = Returned uri →
  located uri handlers i rgx (Some a) →
  heap !! a = Some obj →
  working_ obj = negb on →
  ∃ heap1,
    do_switch_http_handler uri_r on handlers heap = Returned (0, heap1) ∧
    (working_ <$> heap1 !! a) = Some on ∧
    do_switch_http_handler uri_r (negb on) handlers heap1 = Returned (0, heap).
Proof.
  intros Hpath Hloc Ha Hw. exists (<[a := set_working on obj]> heap).
  split; [|split].
  - rewrite (do_switch_http_handler_located _ _ _ _ _ _ _ _ _ Hpath Hloc Ha).
    rewrite bool_decide_eq_false_2; [done|]. rewrite Hw. by destruct on.
  - by rewrite lookup_insert_eq.
  - rewrite (do_switch_http_handler_located _ uri (negb on) handlers _ i rgx a
               (set_working on obj) Hpath Hloc) by apply lookup_insert_eq.
    rewrite bool_decide_eq_false_2 by (simpl; by destruct on).
    do 2 f_equal. rewrite insert_insert_eq. apply insert_id.
    rewrite Ha. f_equal. destruct obj as [b s f w h]. simpl in *.
    by rewrite Hw.
Qed.

(** X9. Whatever the switch returns, the code is 0, -1 or -2, the store is
    written only when the code is 0, no record appears or disappears, and
    a record keeps its built-in flag, its counters and its handler; a
    record whose enabled flag changed now has the flag asked for. *)
Theorem do_switch_http_handler_frame uri_r on handlers heap c heap' :
  do_switch_http_handler uri_r on handlers heap = Returned (c, heap') →
  (c = 0 ∨ c = -1 ∨ c = -2) ∧
  (c ≠ 0 → heap' = heap) ∧
  dom heap' = dom heap ∧
  (∀ b obj, heap !! b = Some obj →
     ∃ obj', heap' !! b = Some obj' ∧
       built_in_ obj' = built_in_ obj ∧
       success_cnt_ obj' = success_cnt_ obj ∧
       fail_cnt_ obj' = fail_cnt_ obj ∧
       handler_ obj' = handler_ obj ∧
       (working_ obj' ≠ working_ obj → c = 0 ∧ working_ obj' = on)).
Proof.
  unfold do_switch_http_handler.
  destruct (pure_uri_path uri_r) as [uri|f]; [|done].
  cbn [mbind outcome_bind]. intros Hs.
  apply switch_scan_cases in Hs
    as [(-> & -> & _)|(i & rgx & a & obj & _ & Ha & [(-> & -> & _)|(-> & -> & Hw)])].
  - split; [auto|]. split; [done|]. split; [done|].
    intros b o Hb. exists o. by repeat split.
  - split; [auto|]. split; [done|]. split; [done|].
    intros b o Hb. exists o. by repeat split.
  - split; [auto|]. split; [done|].
    split; [by apply dom_insert_lookup_L|].
    intros b o Hb. destruct (decide (b = a)) as [->|Hne].
    + rewrite Ha in Hb. injection Hb as <-.
      exists (set_working on obj). rewrite lookup_insert_eq. by repeat split.
    + exists o. rewrite lookup_insert_ne by done. by repeat split.
Qed.

(** X10. When the pattern has an entry with a record behind it, the switch
    answers 0 or -1, -1 exactly when the record was already in the state
    asked for, and afterwards the record is in that state. *)
Theorem do_switch_http_handler_post uri_r uri on handlers heap i rgx a obj :
  pure_uri_path uri_r = Returned uri →
  located uri handlers i rgx (Some a) →
  heap !! a = Some obj →
  ∃ c heap',
    do_switch_http_handler uri_r on handlers heap = Returned (c, heap') ∧
    (c = 0 ∨ c = -1) ∧
    (c = -1 ↔ working_ obj = on) ∧
    (working_ <$> heap' !! a) = Some on.
Proof.
  intros Hpath Hloc Ha.
  rewrite (do_switch_http_handler_located _ _ on _ _ _ _ _ _ Hpath Hloc Ha).
  case_bool_decide as Hw.
  - exists (-1), heap. repeat split; auto. by rewrite Ha, <-Hw.
  - exists 0, (<[a := set_working on obj]> heap).
    split; [done|]. split; [auto|]. split; [split; [lia|done]|].
    by rewrite lookup_insert_eq.
Qed.

Lemma wait_drained_shape use_count r :
  ∀ log, ∃ k, (k ≤ pred r)%nat ∧
    wait_drained use_count r log =
      mkDrainLog (use_count_reads log + S k) (usleep_calls log + k).
Proof.
  induction r as [|r IH]; intros [reads sleeps].
  - exists 0%nat. split; [done|]. cbn; unfold after_read, after_usleep; cbn; f_equal; lia.
  - rewrite wait_drained_step.
    destruct ((2 <? use_count (use_count_reads (mkDrainLog reads sleeps)))
              && (0 <? Z.of_nat r)) eqn:E.
    + apply andb_prop in E as [_ Hr%Z.ltb_lt].
      destruct (IH (after_usleep (after_read (mkDrainLog reads sleeps))))
        as (k & Hk & ->).
      exists (S k). split; [lia|]. cbn; unfold after_read, after_usleep; cbn; f_equal; lia.
    + exists 0%nat. split; [lia|]. cbn; unfold after_read, after_usleep; cbn; f_equal; lia.
Qed.

Lemma wait_drained_first use_count k :
  ∀ r log, (k ≤ r)%nat →
  (∀ j, (j < k)%nat → 2 < use_count (use_count_reads log + j)%nat) →
  use_count (use_count_reads log + k)%nat ≤ 2 →
  wait_drained use_count (S r) log =
    mkDrainLog (use_count_reads log + S k) (usleep_calls log + k).
Proof.
  induction k as [|k IH]; intros r [reads sleeps] Hk Hbusy Hmin;
    cbn [use_count_reads usleep_calls] in *.
  - rewrite wait_drained_at_minimum.
    + cbn; unfold after_read, after_usleep; cbn; f_equal; lia.
    + cbn. by rewrite Nat.add_0_r in Hmin.
  - destruct r as [|r]; [lia|]. rewrite wait_drained_step.
    cbn [use_count_reads].
    destruct (Z.ltb_spec 2 (use_count reads)) as [_|Hle].
    2:{ specialize (Hbusy 0%nat). rewrite Nat.add_0_r in Hbusy. lia. }
    destruct (Z.ltb_spec 0 (Z.of_nat (S r))); [|lia]. cbn [andb].
    rewrite IH; cbn [after_usleep after_read use_count_reads usleep_calls].
    + f_equal; lia.
    + lia.
    + intros j Hj. replace (S reads + j)%nat with (reads + S j)%nat by lia.
      apply Hbusy. lia.
    + by replace (S reads + k)%nat with (reads + S k)%nat by lia.
Qed.

Lemma do_update_http_handler_cases use_count uri_r on handlers heap :
  (∃ f, do_update_http_handler use_count uri_r on handlers heap = Undefined f) ∨
  do_update_http_handler use_count uri_r on handlers heap =
    Returned (-1, handlers, no_drain) ∨
  (∃ k, (k ≤ 9)%nat ∧
     (do_update_http_handler use_count uri_r on handlers heap =
        Returned (-2, handlers, mkDrainLog (k + 2) k) ∨
      do_update_http_handler use_count uri_r on handlers heap =
        Returned (-2, delete 0%nat handlers, mkDrainLog (k + 2) k))).
Proof.
  unfold do_update_http_handler.
  destruct (pure_uri_path uri_r) as [uri|f]; [|left; by eexists].
  cbn [mbind outcome_bind].
  destruct (update_scan uri handlers) as [a|]; [|left; by eexists].
  cbn [deref]. destruct (heap !! a) as [obj|]; [|left; by eexists].
  cbn [mbind outcome_bind].
  destruct (built_in_ obj); [right; by left|].
  destruct (wait_drained_shape use_count 10 no_drain) as (k & Hk & ->).
  unfold after_read, no_drain in *.
  cbn [use_count_reads usleep_calls Nat.add] in *.
  replace (S (S k)) with (k + 2)%nat by lia.
  destruct (2 <? use_count (S k)).
  - right; right. exists k. split; [lia|]. by left.
  - case_bool_decide; [|left; by eexists].
    right; right. exists k. split; [lia|]. by right.
Qed.

(** X11. Whatever the update returns, the code is -1 or -2, never 0; with
    -1 the table is untouched and the use count was not read; otherwise the
    table is the one given or the one given without its first entry. *)
Theorem do_update_http_handler_frame use_count uri_r on handlers heap
    c handlers' log :
  do_update_http_handler use_count uri_r on handlers heap =
    Returned (c, handlers', log) →
  (c = -1 ∨ c = -2) ∧
  (c = -1 → handlers' = handlers ∧ log = no_drain) ∧
  (handlers' = handlers ∨ handlers' = delete 0%nat handlers).
Proof.
  intros H.
  destruct (do_update_http_handler_cases use_count uri_r on handlers heap)
    as [[f Hf]|[H1|(k & _ & [H2|H2])]]; rewrite H in *.
  - done.
  - injection H1 as -> -> ->. auto.
  - injection H2 as -> -> ->. split; [auto|]. split; [lia|auto].
  - injection H2 as -> -> ->. split; [auto|]. split; [lia|auto].
Qed.

(** X12. Whatever the use count does, an update that returns has slept at
    most 9 times, and the readings of the use count that decide its way
    (the loop condition and the test after the loop; the reading handed to
    the log call on the busy exit is not among them) are either none or two
    more than the sleeps, 11 at most. *)
Theorem do_update_http_handler_bounded_wait use_count uri_r on handlers heap
    c handlers' log :
  do_update_http_handler use_count uri_r on handlers heap =
    Returned (c, handlers', log) →
  (usleep_calls log ≤ 9)%nat ∧
  (log = no_drain ∨ use_count_reads log = (usleep_calls log + 2)%nat).
Proof.
  intros H.
  destruct (do_update_http_handler_cases use_count uri_r on handlers heap)
    as [[f Hf]|[H1|(k & Hk & [H2|H2])]]; rewrite H in *.
  - done.
  - injection H1 as -> -> ->. cbn. split; [lia|auto].
  - injection H2 as -> -> ->. cbn. auto.
  - injection H2 as -> -> ->. cbn. auto.
Qed.

(** X13. The polling stops at the first reading that is not above 2: with
    that reading the [k]-th (counting from 0, [k] at most 9), the update
    has slept [k] times, and the reading made next decides: above 2, the
    table is left alone; otherwise the first entry is erased. *)
Theorem do_update_http_handler_early_exit use_count uri_r uri on handlers heap
    i rgx a obj k :
  pure_uri_path uri_r = Returned uri →
  located uri handlers i rgx (Some a) →
  heap !! a = Some obj →
  built_in_ obj = false →
  (k ≤ 9)%nat →
  (∀ j, (j < k)%nat → 2 < use_count j) →
  use_count k ≤ 2 →
  do_update_http_handler use_count uri_r on handlers heap =
    Returned (-2,
              if 2 <? use_count (S k) then handlers else delete 0%nat handlers,
              mkDrainLog (k + 2) k).
Proof.
  intros Hpath Hloc Ha Hb Hk Hbusy Hmin. unfold do_update_http_handler.
  rewrite Hpath. cbn [mbind outcome_bind].
  rewrite (update_scan_located _ _ _ _ _ Hloc), (deref_Some _ _ _ Ha).
  cbn [mbind outcome_bind]. rewrite Hb.
  rewrite (wait_drained_first use_count k 9 no_drain Hk) by done.
  unfold after_read, no_drain.
  cbn [use_count_reads usleep_calls Nat.add].
  replace (S (S k)) with (k + 2)%nat by lia.
  destruct (2 <? use_count (S k)); [done|].
  rewrite bool_decide_eq_true_2; [done|]. by eapply located_length.
Qed.

(** X14. The reading made after the polling has given up counts: with the
    ten readings of the loop above 2 and the eleventh not, the first entry
    is erased after all. *)
Theorem do_update_http_handler_last_reading use_count uri_r uri on handlers
    heap i rgx a obj :
  pure_uri_path uri_r = Returned uri →
  located uri handlers i rgx (Some a) →
  heap !! a = Some obj →
  built_in_ obj = false →
  (∀ j, (j ≤ 9)%nat → 2 < use_count j) →
  use_count 10%nat ≤ 2 →
  do_update_http_handler use_count uri_r on handlers heap =
    Returned (-2, delete 0%nat handlers, mkDrainLog 11 9).
Proof.
  intros Hpath Hloc Ha Hb Hbusy Hmin. unfold do_update_http_handler.
  rewrite Hpath. cbn [mbind outcome_bind].
  rewrite (update_scan_located _ _ _ _ _ Hloc), (deref_Some _ _ _ Ha).
  cbn [mbind outcome_bind]. rewrite Hb.
  rewrite wait_drained_busy.
  2:{ cbn [no_drain use_count_reads]. intros j Hj. apply Hbusy. lia. }
  cbn [after_read no_drain use_count_reads usleep_calls Nat.add].
  destruct (Z.ltb_spec 2 (use_count 10%nat)) as [Hlt|_]; [lia|].
  rewrite bool_decide_eq_true_2; [done|]. by eapply located_length.
Qed.

Lemma table_wf_located uri handlers heap i rgx p :
  table_wf handlers heap → located uri handlers i rgx p →
  ∃ a obj, p = Some a ∧ heap !! a = Some obj.
Proof.
  intros Hwf [Hi _]. apply (Hwf rgx p). by eapply list_elem_of_lookup_2.
Qed.

(** X15. On a table whose pointers all own a record, the update
    dereferences a null pointer exactly when the existence check answers
    false; when the check answers true the update returns, and the table it
    leaves is again one whose pointers all own a record. *)
Theorem do_update_http_handler_defined_iff use_count uri_r uri on handlers heap :
  table_wf handlers heap →
  pure_uri_path uri_r = Returned uri →
  (do_update_http_handler use_count uri_r on handlers heap =
     Undefined NullDereference ↔
   do_check_exist_http_handler uri_r handlers = Returned false) ∧
  (do_check_exist_http_handler uri_r handlers = Returned true →
   ∃ c handlers' log,
     do_update_http_handler use_count uri_r on handlers heap =
       Returned (c, handlers', log) ∧
     table_wf handlers' heap).
Proof.
  intros Hwf Hpath.
  assert (check_exist_scan uri handlers = true →
          ∃ c handlers' log,
            do_update_http_handler use_count uri_r on handlers heap =
              Returned (c, handlers', log) ∧ table_wf handlers' heap) as Hret.
  { intros (i & rgx & p & Hloc)%check_exist_scan_true.
    destruct (table_wf_located _ _ _ _ _ _ Hwf Hloc) as (a & obj & -> & Ha).
    destruct (do_update_http_handler_cases use_count uri_r on handlers heap)
      as [[f Hf]|[H1|(k & _ & [H2|H2])]].
    - exfalso. revert Hf. unfold do_update_http_handler.
      rewrite Hpath. cbn [mbind outcome_bind].
      rewrite (update_scan_located _ _ _ _ _ Hloc), (deref_Some _ _ _ Ha).
      cbn [mbind outcome_bind]. destruct (built_in_ obj); [done|].
      destruct (2 <? _); [done|].
      rewrite bool_decide_eq_true_2; [done|]. by eapply located_length.
    - eauto 10.
    - eauto 10.
    - do 3 eexists. split; [exact H2|].
      intros rgx' p' Hin. apply (Hwf rgx' p').
      by eapply list_elem_of_delete_inv. }
  unfold do_check_exist_http_handler. rewrite Hpath.
  cbn [mbind outcome_bind mret outcome_ret]. split; [split|].
  - intros Hnull. f_equal.
    destruct (check_exist_scan uri handlers) eqn:E; [|done].
    destruct (Hret eq_refl) as (c & handlers' & log & Hr & _). congruence.
  - intros [= E]. unfold do_update_http_handler.
    rewrite Hpath. cbn [mbind outcome_bind].
    by rewrite (update_scan_absent _ _ E).
  - intros [= E]. auto.
Qed.

(** X16. On a table whose pointers all own a record, the switch returns
    for every pattern that can be normalized, and the table is again one
    whose pointers all own a record in the store it leaves. *)
Theorem do_switch_http_handler_defined uri_r uri on handlers heap :
  table_wf handlers heap →
  pure_uri_path uri_r = Returned uri →
  ∃ c heap',
    do_switch_http_handler uri_r on handlers heap = Returned (c, heap') ∧
    table_wf handlers heap'.
Proof.
  intros Hwf Hpath.
  destruct (check_exist_scan uri handlers) eqn:E.
  - apply check_exist_scan_true in E as (i & rgx & p & Hloc).
    destruct (table_wf_located _ _ _ _ _ _ Hwf Hloc) as (a & obj & -> & Ha).
    rewrite (do_switch_http_handler_located _ _ on _ _ _ _ _ _ Hpath Hloc Ha).
    case_bool_decide; [by eauto|].
    do 2 eexists. split; [done|]. intros rgx' p' Hin.
    destruct (Hwf rgx' p' Hin) as (b & o & -> & Hb).
    destruct (decide (b = a)) as [->|Hne].
    + exists a, (set_working on obj). by rewrite lookup_insert_eq.
    + exists b, o. by rewrite lookup_insert_ne.
  - exists (-2), heap. split; [|done]. unfold do_switch_http_handler.
    rewrite Hpath. cbn [mbind outcome_bind]. by apply switch_scan_absent.
Qed.

(** X17. A pattern of whitespace only, the empty pattern among them, makes
    each of the three operations index the empty string out of bounds,
    whatever the table holds. *)
Theorem blank_pattern_out_of_bounds use_count uri_r on handlers heap :
  Forall (λ c, isspace c = true) uri_r →
  do_check_exist_http_handler uri_r handlers = Undefined OutOfBounds ∧
  do_switch_http_handler uri_r on handlers heap = Undefined OutOfBounds ∧
  do_update_http_handler use_count uri_r on handlers heap =
    Undefined OutOfBounds.
Proof.
  intros Hx. unfold do_check_exist_http_handler, do_switch_http_handler,
    do_update_http_handler.
  by rewrite (pure_uri_path_blank uri_r Hx).
Qed.

Lemma do_update_http_handler_at_minimum use_count uri_r uri on handlers heap
    i rgx a obj :
  pure_uri_path uri_r = Returned uri →
  located uri handlers i rgx (Some a) →
  heap !! a = Some obj →
  built_in_ obj = false →
  use_count 0%nat ≤ 2 → use_count 1%nat ≤ 2 →
  do_update_http_handler use_count uri_r on handlers heap =
    Returned (-2, delete 0%nat handlers, mkDrainLog 2 0).
Proof.
  intros Hpath Hloc Ha Hb H0 H1. unfold do_update_http_handler.
  rewrite Hpath. cbn [mbind outcome_bind].
  rewrite (update_scan_located _ _ _ _ _ Hloc), (deref_Some _ _ _ Ha).
  cbn [mbind outcome_bind]. rewrite Hb.
  rewrite wait_drained_at_minimum by exact H0.
  cbn [after_read no_drain use_count_reads usleep_calls].
  destruct (Z.ltb_spec 2 (use_count 1%nat)) as [Hlt|_]; [lia|].
  rewrite bool_decide_eq_true_2; [done|]. by eapply located_length.
Qed.

Lemma located_delete_first uri handlers i rgx p :
  located uri handlers (S i) rgx p → located uri (delete 0%nat handlers) i rgx p.
Proof.
  destruct handlers as [|[rgx0 p0] handlers]; intros Hloc.
  - by destruct Hloc as [Hi _].
  - assert (str rgx0 ≠ uri) as Hne.
    { destruct Hloc as (_ & _ & Hfirst). apply (Hfirst 0%nat rgx0 p0); [lia|done]. }
    destruct (located_cons_ne _ _ _ _ _ _ _ Hne Hloc) as (i' & [= <-] & Hloc').
    exact Hloc'.
Qed.

(** X18. An update that finds the use count at 2 erases the first entry of
    the table: a pattern located further down is still there afterwards,
    one place up, and the existence check and the switch still find it; a
    pattern located at the first place, with no other entry of its text,
    is gone. *)
Theorem do_update_http_handler_then_check_exist use_count uri_r uri on
    handlers heap i rgx a obj :
  pure_uri_path uri_r = Returned uri →
  located uri handlers i rgx (Some a) →
  heap !! a = Some obj →
  built_in_ obj = false →
  use_count 0%nat ≤ 2 → use_count 1%nat ≤ 2 →
  ∃ handlers' log,
    do_update_http_handler use_count uri_r on handlers heap =
      Returned (-2, handlers', log) ∧
    length handlers = S (length handlers') ∧
    (i ≠ 0%nat →
       located uri handlers' (pred i) rgx (Some a) ∧
       do_check_exist_http_handler uri_r handlers' = Returned true ∧
       do_switch_http_handler uri_r (working_ obj) handlers' heap =
         Returned (-1, heap)) ∧
    (i = 0%nat →
       (∀ j rgx' p', (0 < j)%nat → handlers !! j = Some (rgx', p') →
                     str rgx' ≠ uri) →
       do_check_exist_http_handler uri_r handlers' = Returned false).
Proof.
  intros Hpath Hloc Ha Hb H0 H1. exists (delete 0%nat handlers), (mkDrainLog 2 0).
  split; [by eapply do_update_http_handler_at_minimum|].
  split.
  { pose proof (located_length _ _ _ _ _ Hloc).
    destruct handlers; simpl in *; lia. }
  unfold do_check_exist_http_handler. rewrite Hpath.
  cbn [mbind outcome_bind mret outcome_ret]. split.
  - intros Hi. destruct i as [|i]; [done|].
    apply located_delete_first in Hloc. split; [exact Hloc|]. split.
    + f_equal. apply check_exist_scan_true. eauto.
    + rewrite (do_switch_http_handler_located _ _ _ _ _ _ _ _ _ Hpath Hloc Ha).
      by rewrite bool_decide_eq_true_2.
  - intros -> Huniq. f_equal. apply check_exist_scan_false.
    intros rgx' p' Hin. apply list_elem_of_lookup_1 in Hin as [j Hj].
    destruct handlers as [|e handlers]; [done|]. simpl in Hj.
    apply (Huniq (S j) rgx' p'); [lia|done].
Qed.

End MoreOperations.

(** ** The further properties on concrete inputs *)

Ltac solve_representable :=
  unfold representable, SIZE_T_MODULUS; simpl; lia.

Lemma pure_uri_path_result_witness :
  pure_uri_path (lit "  /A/B// ") = Returned (lit "/a/b") ∧
  trim_copy (to_lower_copy (lit "  /A/B// ")) = lit "/a/b" ++ replicate 2 slash ∧
  to_lower_copy (lit "/a/b") = lit "/a/b" ∧
  (length (lit "/a/b") ≤ length (lit "  /A/B// "))%nat.
Proof.
  assert (pure_uri_path (lit "  /A/B// ") = Returned (lit "/a/b")) as Hy
    by (vm_compute; reflexivity).
  destruct (pure_uri_path_result (lit "  /A/B// ") (lit "/a/b")
              ltac:(solve_representable) Hy)
    as (_ & _ & Hlow & _ & _ & Hlen).
  split; [exact Hy|]. split; [vm_compute; reflexivity|].
  split; [exact Hlow|exact Hlen].
Defined.

Lemma pure_uri_path_fixed_point_iff_witness :
  pure_uri_path (lit "/a/b") = Returned (lit "/a/b").
Proof.
  apply (pure_uri_path_fixed_point_iff (lit "/a/b") ltac:(solve_representable)).
  split; [discriminate|]. split; [vm_compute; reflexivity|].
  split; [intros c [= <-]; vm_compute; reflexivity|].
  split; [intros c [= <-]; vm_compute; reflexivity|].
  right. vm_compute. discriminate.
Defined.

Lemma pure_uri_path_trailing_slash_witness :
  pure_uri_path (lit "/Foo" ++ [slash]) = pure_uri_path (lit "/Foo") ∧
  pure_uri_path (lit "/Foo") = Returned (lit "/foo").
Proof.
  split; [|vm_compute; reflexivity].
  apply (pure_uri_path_trailing_slash (lit "/Foo") "o"%char).
  - solve_representable.
  - reflexivity.
  - vm_compute; reflexivity.
Defined.

Lemma pure_uri_path_slashes_witness :
  pure_uri_path (lit "////") = Returned (lit "/").
Proof.
  apply (pure_uri_path_slashes 3). solve_representable.
Defined.

Lemma do_check_exist_http_handler_iff_witness :
  do_check_exist_http_handler (lit " /B/ ") demo_handlers = Returned true.
Proof.
  destruct (do_check_exist_http_handler_iff (lit " /B/ ") (lit "/b")
              demo_handlers ltac:(vm_compute; reflexivity))
    as (b & Hb & Hiff).
  rewrite Hb. f_equal. apply Hiff.
  exists (mkUriRegex (lit "/b")), (Some 2%positive). split; [|reflexivity].
  unfold demo_handlers. apply elem_of_cons. right. apply elem_of_cons. by left.
Defined.

Lemma do_switch_http_handler_not_found_iff_witness :
  do_check_exist_http_handler (lit "/zzz") demo_handlers = Returned false ∧
  do_switch_http_handler (lit "/zzz") true demo_handlers demo_heap =
    Returned (-2, demo_heap).
Proof.
  assert (do_check_exist_http_handler (lit "/zzz") demo_handlers =
            Returned false) as Hc by (vm_compute; reflexivity).
  split; [exact Hc|].
  apply (proj1 (do_switch_http_handler_not_found_iff (lit "/zzz") (lit "/zzz")
                  true demo_handlers demo_heap ltac:(vm_compute; reflexivity))).
  exact Hc.
Defined.

Lemma do_switch_http_handler_round_trip_witness :
  ∃ heap1,
    do_switch_http_handler (lit "/a") false demo_handlers demo_heap =
      Returned (0, heap1) ∧
    (working_ <$> heap1 !! 1%positive) = Some false ∧
    do_switch_http_handler (lit "/a") true demo_handlers heap1 =
      Returned (0, demo_heap).
Proof.
  apply (do_switch_http_handler_round_trip (lit "/a") (lit "/a") false
           demo_handlers demo_heap 0 (mkUriRegex (lit "/a")) 1%positive
           (new_HttpHandlerObject "A"%string false)).
  - vm_compute; reflexivity.
  - exact demo_located_a.
  - vm_compute; reflexivity.
  - reflexivity.
Defined.

Lemma do_switch_http_handler_frame_witness :
  do_switch_http_handler (lit "/b") true demo_handlers demo_heap =
    Returned (0, <[2%positive := new_HttpHandlerObject "B"%string false]> demo_heap) ∧
  dom (<[2%positive := new_HttpHandlerObject "B"%string false]> demo_heap) =
    dom demo_heap.
Proof.
  assert (do_switch_http_handler (lit "/b") true demo_handlers demo_heap =
            Returned (0, <[2%positive := new_HttpHandlerObject "B"%string false]>
                           demo_heap)) as Hs.
  { rewrite (do_switch_http_handler_located (lit "/b") (lit "/b") true
               demo_handlers demo_heap 1 (mkUriRegex (lit "/b")) 2%positive
               (set_working false (new_HttpHandlerObject "B"%string false))
               ltac:(vm_compute; reflexivity) demo_located_b
               ltac:(vm_compute; reflexivity)).
    reflexivity. }
  split; [exact Hs|].
  exact (proj1 (proj2 (proj2 (do_switch_http_handler_frame _ _ _ _ _ _ Hs)))).
Defined.

Lemma do_switch_http_handler_post_witness :
  ∃ c heap',
    do_switch_http_handler (lit "/b") true demo_handlers demo_heap =
      Returned (c, heap') ∧
    (c = 0 ∨ c = -1) ∧
    (c = -1 ↔ false = true) ∧
    (working_ <$> heap' !! 2%positive) = Some true.
Proof.
  apply (do_switch_http_handler_post (lit "/b") (lit "/b") true
           demo_handlers demo_heap 1 (mkUriRegex (lit "/b")) 2%positive
           (set_working false (new_HttpHandlerObject "B"%string false))).
  - vm_compute; reflexivity.
  - exact demo_located_b.
  - vm_compute; reflexivity.
Defined.

Lemma demo_update_busy :
  do_update_http_handler (λ _, 3) (lit "/b") true demo_handlers demo_heap =
    Returned (-2, demo_handlers, mkDrainLog 11 9).
Proof. vm_compute; reflexivity. Defined.

Lemma do_update_http_handler_frame_witness :
  do_update_http_handler (λ _, 3) (lit "/b") true demo_handlers demo_heap =
    Returned (-2, demo_handlers, mkDrainLog 11 9) ∧
  (-2 = -1 ∨ -2 = -2) ∧
  (demo_handlers = demo_handlers ∨ demo_handlers = delete 0%nat demo_handlers).
Proof.
  split; [exact demo_update_busy|].
  destruct (do_update_http_handler_frame _ _ _ _ _ _ _ _ demo_update_busy)
    as (Hc & _ & Ht).
  split; [exact Hc|exact Ht].
Defined.

Lemma do_update_http_handler_bounded_wait_witness :
  (usleep_calls (mkDrainLog 11 9) ≤ 9)%nat ∧
  (mkDrainLog 11 9 = no_drain ∨
   use_count_reads (mkDrainLog 11 9) = (usleep_calls (mkDrainLog 11 9) + 2)%nat).
Proof.
  exact (do_update_http_handler_bounded_wait _ _ _ _ _ _ _ _ demo_update_busy).
Defined.

Lemma do_update_http_handler_early_exit_witness :
  do_update_http_handler (λ j, if (j <? 3)%nat then 5 else 2) (lit "/b") true
    demo_handlers demo_heap =
    Returned (-2,
              [ (mkUriRegex (lit "/b"), Some 2%positive);
                (mkUriRegex (lit "/"), Some 3%positive) ],
              mkDrainLog 5 3).
Proof.
  apply (do_update_http_handler_early_exit
           (λ j, if (j <? 3)%nat then 5 else 2) (lit "/b") (lit "/b") true
           demo_handlers demo_heap 1 (mkUriRegex (lit "/b")) 2%positive
           (set_working false (new_HttpHandlerObject "B"%string false)) 3).
  - vm_compute; reflexivity.
  - exact demo_located_b.
  - vm_compute; reflexivity.
  - reflexivity.
  - lia.
  - intros j Hj. destruct j as [|[|[|j]]]; simpl; lia.
  - simpl. lia.
Defined.

Lemma do_update_http_handler_last_reading_witness :
  do_update_http_handler (λ j, if (j <? 10)%nat then 3 else 2) (lit "/b") true
    demo_handlers demo_heap =
    Returned (-2,
              [ (mkUriRegex (lit "/b"), Some 2%positive);
                (mkUriRegex (lit "/"), Some 3%positive) ],
              mkDrainLog 11 9).
Proof.
  apply (do_update_http_handler_last_reading
           (λ j, if (j <? 10)%nat then 3 else 2) (lit "/b") (lit "/b") true
           demo_handlers demo_heap 1 (mkUriRegex (lit "/b")) 2%positive
           (set_working false (new_HttpHandlerObject "B"%string false))).
  - vm_compute; reflexivity.
  - exact demo_located_b.
  - vm_compute; reflexivity.
  - reflexivity.
  - intros j Hj. destruct (Nat.ltb_spec j 10); lia.
  - simpl. lia.
Defined.

Lemma demo_table_wf : table_wf demo_handlers demo_heap.
Proof.
  intros rgx p Hin. unfold demo_handlers in Hin.
  repeat (apply elem_of_cons in Hin as [[= -> ->]|Hin];
          [eexists _, _; split; [reflexivity|vm_compute; reflexivity]|]).
  by apply elem_of_nil in Hin.
Defined.

Lemma do_update_http_handler_defined_iff_witness :
  do_update_http_handler (λ _, 2) (lit "/zzz") true demo_handlers demo_heap =
    Undefined NullDereference ∧
  ∃ c handlers' log,
    do_update_http_handler (λ _, 2) (lit "/a") true demo_handlers demo_heap =
      Returned (c, handlers', log) ∧
    table_wf handlers' demo_heap.
Proof.
  split.
  - apply (proj1 (do_update_http_handler_defined_iff (λ _, 2) (lit "/zzz")
                    (lit "/zzz") true demo_handlers demo_heap demo_table_wf
                    ltac:(vm_compute; reflexivity))).
    vm_compute; reflexivity.
  - apply (proj2 (do_update_http_handler_defined_iff (λ _, 2) (lit "/a")
                    (lit "/a") true demo_handlers demo_heap demo_table_wf
                    ltac:(vm_compute; reflexivity))).
    vm_compute; reflexivity.
Defined.

Lemma do_switch_http_handler_defined_witness :
  ∃ c heap',
    do_switch_http_handler (lit "/B") true demo_handlers demo_heap =
      Returned (c, heap') ∧
    table_wf demo_handlers heap'.
Proof.
  apply (do_switch_http_handler_defined (lit "/B") (lit "/b") true
           demo_handlers demo_heap demo_table_wf).
  vm_compute; reflexivity.
Defined.

Lemma blank_pattern_out_of_bounds_witness :
  do_check_exist_http_handler (lit "") demo_handlers = Undefined OutOfBounds ∧
  do_switch_http_handler (lit " ") false demo_handlers demo_heap =
    Undefined OutOfBounds ∧
  do_update_http_handler (λ _, 2) (lit " ") true demo_handlers demo_heap =
    Undefined OutOfBounds.
Proof.
  destruct (blank_pattern_out_of_bounds (λ _, 2) (lit "") true demo_handlers
              demo_heap ltac:(constructor)) as (H1 & _ & _).
  destruct (blank_pattern_out_of_bounds (λ _, 2) (lit " ") false demo_handlers
              demo_heap ltac:(repeat constructor)) as (_ & H2 & _).
  destruct (blank_pattern_out_of_bounds (λ _, 2) (lit " ") true demo_handlers
              demo_heap ltac:(repeat constructor)) as (_ & _ & H3).
  split; [exact H1|]. split; [exact H2|exact H3].
Defined.

Lemma do_update_http_handler_then_check_exist_witness :
  ∃ handlers' log,
    do_update_http_handler (λ _, 2) (lit "/b") true demo_handlers demo_heap =
      Returned (-2, handlers', log) ∧
    length demo_handlers = S (length handlers') ∧
    do_check_exist_http_handler (lit "/b") handlers' = Returned true.
Proof.
  destruct (do_update_http_handler_then_check_exist (λ _, 2) (lit "/b")
              (lit "/b") true demo_handlers demo_heap 1 (mkUriRegex (lit "/b"))
              2%positive
              (set_working false (new_HttpHandlerObject "B"%string false))
              ltac:(vm_compute; reflexivity) demo_located_b
              ltac:(vm_compute; reflexivity) eq_refl ltac:(simpl; lia)
              ltac:(simpl; lia))
    as (handlers' & log & Hup & Hlen & Hstay & _).
  exists handlers', log. split; [exact Hup|]. split; [exact Hlen|].
  exact (proj1 (proj2 (Hstay ltac:(lia)))).
Defined.
